(** * Seasonal trend detector: a shallow embedding of
      [src/analysis/seasonal_trends.py] and the properties of its
      specification.

    Modelling conventions.
    - The frame handed to the constructor has a [date] column that holds
      either datetime values or strings ([DataFrame.t]), and an
      [enrolments] column of [int64] counts.  A datetime value is a
      calendar date [(year, month, day)]; a count is an integer.
    - The constructor sorts the frame on the date column as it finds it,
      dates as dates and strings as strings, and only then parses a
      column of strings ([Constructor]); [pd.to_datetime] is a parameter
      of the model.  [SeasonalTrendDetector.__init__] and
      [SeasonalTrendDetector._prepare_data] are the constructor and the
      preparation on a frame whose dates are datetime values, where
      nothing is parsed.
    - [sum()] of the count column, whole or per monthly bin, is an [int64]
      sum and wraps around ([sum_int64]); [mean()], whole or grouped, adds
      the counts up as [float64] and does not.
    - NumPy / pandas [float64] values are modelled as exact reals extended
      with the IEEE special values NaN and the two infinities: rounding is
      abstracted away, the special values and the non-raising division of
      NumPy are kept.  Signed zeros are not distinguished; every divisor
      of the program is a count, a mean or a standard deviation, none of
      which is a negative zero.  A value stated here is the program's
      value up to rounding, and a comparison of two values that are less
      than a rounding error apart may come out differently in the
      program.
    - Library calls are modelled by their documented behaviour:
      [sort_values] (default [kind='quicksort']) returns a sorted
      permutation and fixes nothing about ties, so the constructor and the
      two peak queries, which sort, are relations between the input and
      an admissible result; [groupby(key)] yields one
      group per key value present, in ascending key order;
      [groupby(pd.Grouper(freq='ME'))] bins the whole span of months from
      the earliest to the latest date, empty bins included (their sum is
      0); [mean] of an empty series is NaN; [std] is the sample standard
      deviation ([ddof=1]) and is NaN below two values; [strftime('%Y')]
      prints the year without padding.
    - [statsmodels.tsa.seasonal.seasonal_decompose] is an external call:
      the program is a small interaction tree whose only event is that
      call. *)

From Stdlib Require Import ZArith List Bool Lia Reals Lra Psatz.
From Stdlib Require Import String Ascii.
From Stdlib Require Import Sorting.Permutation Sorting.Sorted.
Import ListNotations.

Open Scope Z_scope.

(** ** Calendar *)

Module Calendar.

Record Date := mkDate { year : Z; month : Z; day : Z }.

Definition is_leap (y : Z) : bool :=
  ((y mod 4 =? 0) && negb (y mod 100 =? 0)) || (y mod 400 =? 0).

Definition days_in_month (y m : Z) : Z :=
  if m =? 2 then (if is_leap y then 29 else 28)
  else if (m =? 4) || (m =? 6) || (m =? 9) || (m =? 11) then 30
  else 31.

Definition valid_date (d : Date) : bool :=
  (1 <=? month d) && (month d <=? 12) &&
  (1 <=? day d) && (day d <=? days_in_month (year d) (month d)).

(** Timestamp order: chronological, i.e. lexicographic on the fields. *)
Definition date_leb (a b : Date) : bool :=
  (year a <? year b) ||
  ((year a =? year b) &&
   ((month a <? month b) || ((month a =? month b) && (day a <=? day b)))).

Definition date_le (a b : Date) : Prop := date_leb a b = true.

(** [.dt.quarter] *)
Definition quarter_of (d : Date) : Z := (month d - 1) / 3 + 1.

(** Days since 1970-01-01 in the proleptic Gregorian calendar. *)
Definition days_from_civil (d : Date) : Z :=
  let y := if month d <=? 2 then year d - 1 else year d in
  let era := y / 400 in
  let yoe := y - era * 400 in
  let mp := if month d <=? 2 then month d + 9 else month d - 3 in
  let doy := (153 * mp + 2) / 5 + day d - 1 in
  let doe := yoe * 365 + yoe / 4 - yoe / 100 + doy in
  era * 146097 + doe - 719468.

(** [.dt.dayofyear] *)
Definition day_of_year (d : Date) : Z :=
  days_from_civil d - days_from_civil (mkDate (year d) 1 1) + 1.

(** ISO weekday, Monday = 1 ... Sunday = 7 (1970-01-01 was a Thursday). *)
Definition iso_weekday (d : Date) : Z := (days_from_civil d + 3) mod 7 + 1.

Definition iso_weeks_in_year (y : Z) : Z :=
  let p := fun y => (y + y / 4 - y / 100 + y / 400) mod 7 in
  if (p y =? 4) || (p (y - 1) =? 3) then 53 else 52.

(** [.dt.isocalendar().week] *)
Definition iso_week (d : Date) : Z :=
  let w := (day_of_year d - iso_weekday d + 10) / 7 in
  if w <? 1 then iso_weeks_in_year (year d - 1)
  else if iso_weeks_in_year (year d) <? w then 1
  else w.

(** Calendar months counted from year 0: the label of a monthly bin. *)
Definition month_index (d : Date) : Z := year d * 12 + (month d - 1).

Definition index_year (i : Z) : Z := i / 12.
Definition index_month (i : Z) : Z := i mod 12 + 1.

End Calendar.

Import Calendar.

(** ** NumPy scalars *)

Module NumPy.

(** A [float64]: a real, an infinity with its sign, or NaN. *)
Inductive float64 : Type :=
| Fnum (x : R)
| Finf (negative : bool)
| Fnan.

Definition Rltb (x y : R) : bool := if Rlt_dec x y then true else false.
Definition Reqb (x y : R) : bool := if Req_dec_T x y then true else false.

(** Comparisons with NaN are false. *)
Definition np_lt (a b : float64) : bool :=
  match a, b with
  | Fnan, _ | _, Fnan => false
  | Fnum x, Fnum y => Rltb x y
  | Fnum _, Finf s => negb s
  | Finf s, Fnum _ => s
  | Finf s, Finf t => s && negb t
  end.

Definition np_gt (a b : float64) : bool := np_lt b a.

Definition np_sub (a b : float64) : float64 :=
  match a, b with
  | Fnan, _ | _, Fnan => Fnan
  | Fnum x, Fnum y => Fnum (x - y)
  | Fnum _, Finf s => Finf (negb s)
  | Finf s, Fnum _ => Finf s
  | Finf s, Finf t => if Bool.eqb s t then Fnan else Finf s
  end.

(** Division never raises: a zero divisor gives NaN or an infinity. *)
Definition np_div (a b : float64) : float64 :=
  match a, b with
  | Fnan, _ | _, Fnan => Fnan
  | Fnum x, Fnum y =>
      if Reqb y 0 then (if Reqb x 0 then Fnan else Finf (Rltb x 0))
      else Fnum (x / y)
  | Fnum _, Finf _ => Fnum 0
  | Finf s, Fnum y => Finf (xorb s (Rltb y 0))
  | Finf _, Finf _ => Fnan
  end.

Definition np_abs (a : float64) : float64 :=
  match a with
  | Fnum x => Fnum (Rabs x)
  | Finf _ => Finf false
  | Fnan => Fnan
  end.

Definition np_sqrt (a : float64) : float64 :=
  match a with
  | Fnum x => if Rltb x 0 then Fnan else Fnum (sqrt x)
  | Finf false => Finf false
  | Finf true => Fnan
  | Fnan => Fnan
  end.

(** Python's builtin [min(a, b)]: [b] if [b < a], else [a]. *)
Definition py_min (a b : float64) : float64 := if np_lt b a then b else a.

End NumPy.

Import NumPy.

(** ** pandas operations used by the detector *)

Module Pandas.

Definition sum_int (xs : list Z) : Z := fold_right Z.add 0 xs.
Definition sum_float (xs : list R) : R := fold_right Rplus 0%R xs.

(** An [int64] result: the integer is reduced modulo 2^64 into
    [-2^63, 2^63). *)
Definition wrap_int64 (z : Z) : Z := (z + 2 ^ 63) mod 2 ^ 64 - 2 ^ 63.

(** [sum()] of an [int64] column, plain or grouped: the additions are
    machine additions, so the result is the sum reduced to [int64]. *)
Definition sum_int64 (xs : list Z) : Z := wrap_int64 (sum_int xs).

(** [Series.mean()] of a series of finite values. *)
Definition series_mean (xs : list R) : float64 :=
  match xs with
  | [] => Fnan
  | _ => Fnum (sum_float xs / INR (List.length xs))
  end.

(** [Series.var()], [ddof = 1]. *)
Definition series_var (xs : list R) : float64 :=
  let count := List.length xs in
  if (count <=? 1)%nat then Fnan
  else
    let avg := (sum_float xs / INR count)%R in
    Fnum (sum_float (map (fun x => (avg - x) ^ 2)%R xs) / (INR count - 1)).

(** [Series.std()] *)
Definition series_std (xs : list R) : float64 := np_sqrt (series_var xs).

(** Distinct keys in ascending order. *)
Fixpoint insert_key (k : Z) (ks : list Z) : list Z :=
  match ks with
  | [] => [k]
  | k' :: rest =>
      if k <? k' then k :: ks
      else if k =? k' then ks
      else k' :: insert_key k rest
  end.

Definition group_keys (ks : list Z) : list Z := fold_right insert_key [] ks.

Definition group {A : Type} (key : A -> Z) (k : Z) (df : list A) : list A :=
  filter (fun r => key r =? k) df.

(** [df.groupby(key)[val].mean()]: the group's values are added up as
    [float64], not as [int64]. *)
Definition groupby_mean {A : Type} (key val : A -> Z) (df : list A)
  : list (Z * R) :=
  map (fun k =>
         let g := map val (group key k df) in
         (k, (IZR (sum_int g) / INR (List.length g))%R))
      (group_keys (map key df)).

Definition zrange (lo : Z) (n : nat) : list Z :=
  map (fun i => lo + Z.of_nat i) (seq 0 n).

(** [df.groupby(pd.Grouper(key=date, freq='ME'))[val].sum()]: one bin
    per calendar month from the month of the earliest date to the month
    of the latest one; a bin is labelled by its month and holds the
    [int64] sum of the values of its rows. *)
Definition grouper_month_sum {A : Type} (date : A -> Date) (val : A -> Z)
    (df : list A) : list (Z * Z) :=
  match map (fun r => month_index (date r)) df with
  | [] => []
  | i :: rest =>
      let first := fold_right Z.min i rest in
      let last := fold_right Z.max i rest in
      map (fun m =>
             (m, sum_int64 (map val
                    (group (fun r => month_index (date r)) m df))))
          (zrange first (Z.to_nat (last - first + 1)))
  end.

(** [sort_values]: some sorted permutation. *)
Definition sort_values {A : Type} (le : A -> A -> Prop)
    (df out : list A) : Prop :=
  Permutation df out /\ StronglySorted le out.

Definition digit (n : Z) : ascii := ascii_of_nat (48 + Z.to_nat (n mod 10)).

Fixpoint zero_pad (width : nat) (n : Z) : string :=
  match width with
  | O => EmptyString
  | S w => (zero_pad w (n / 10) ++ String (digit n) EmptyString)%string
  end.

(** The decimal digits of a number below 10000, without padding. *)
Definition decimal (n : Z) : string :=
  if n <? 10 then zero_pad 1 n
  else if n <? 100 then zero_pad 2 n
  else if n <? 1000 then zero_pad 3 n
  else zero_pad 4 n.

(** [Timestamp.strftime('%Y-%m')] of a monthly bin label: the platform's
    [%Y] prints the year without padding (year 999 gives [999-09]), [%m]
    pads the month to two digits. *)
Definition strftime_Ym (i : Z) : string :=
  (decimal (index_year i) ++ "-" ++ zero_pad 2 (index_month i))%string.

End Pandas.

Import Pandas.


(** ** The detector *)

(** A row of a frame whose dates are datetime values. *)
Module InputRow.
Record t := mk { date : Date; enrolments : Z }.
End InputRow.

(** A row of [self.data] once [_prepare_data] has added its columns. *)
Module Row.
Record t := mk {
  date : Date;
  enrolments : Z;
  month : Z;
  quarter : Z;
  year : Z;
  week : Z;
  day_of_year : Z
}.
End Row.

(** An entry of the list returned by [detect_anomalous_periods]. *)
Module Anomaly.
Inductive kind := spike | drop.
Record t := mk {
  date : string;
  enrolments : Z;
  z_score : float64;
  type : kind
}.
End Anomaly.

Module SeasonalTrendDetector.

Definition prepare_row (r : InputRow.t) : Row.t :=
  let d := InputRow.date r in
  {| Row.date := d;
     Row.enrolments := InputRow.enrolments r;
     Row.month := Calendar.month d;
     Row.quarter := quarter_of d;
     Row.year := Calendar.year d;
     Row.week := iso_week d;
     Row.day_of_year := Calendar.day_of_year d |}.

(** [_prepare_data] once the dates are datetime values (the test of line
    30 is false, or line 31 has parsed the strings): lines 34-38. *)
Definition _prepare_data (df : list InputRow.t) : list Row.t :=
  map prepare_row df.

Definition by_date (a b : InputRow.t) : Prop :=
  date_le (InputRow.date a) (InputRow.date b).

(** [__init__] on a frame whose dates are datetime values: [data] is a
    value [self.data] may hold after construction from [rows]. *)
Definition __init__ (rows : list InputRow.t) (data : list Row.t) : Prop :=
  exists sorted, sort_values by_date rows sorted /\ data = _prepare_data sorted.

(** What [seasonal_decompose] hands back: four series over the monthly
    bins. *)
Record DecomposeResult := {
  dr_trend : list (Z * float64);
  dr_seasonal : list (Z * float64);
  dr_resid : list (Z * float64);
  dr_observed : list (Z * float64)
}.

Inductive SeasonalPattern :=
| InsufficientData (error : string) (required_periods available_periods : Z)
| Components (trend seasonal residual observed : list (Z * float64)).

Inductive Outcome (A : Type) :=
| Returned (a : A)
| Raised (e : string).
Arguments Returned {A} a.
Arguments Raised {A} e.

(** A computation that may call [seasonal_decompose] and resumes with
    what the library answers. *)
Inductive Program (A : Type) :=
| Ret (a : A)
| Call_seasonal_decompose (x : list (Z * Z)) (model : string) (period : Z)
    (extrapolate_trend : string) (k : Outcome DecomposeResult -> Program A).
Arguments Ret {A} a.
Arguments Call_seasonal_decompose {A} x model period extrapolate_trend k.

Fixpoint invocations {A : Type}
    (lib : list (Z * Z) -> Z -> Outcome DecomposeResult)
    (p : Program A) : nat :=
  match p with
  | Ret _ => O
  | Call_seasonal_decompose x _ period _ k =>
      S (invocations lib (k (lib x period)))
  end.

Fixpoint run {A : Type}
    (lib : list (Z * Z) -> Z -> Outcome DecomposeResult)
    (p : Program A) : A :=
  match p with
  | Ret a => a
  | Call_seasonal_decompose x _ period _ k => run lib (k (lib x period))
  end.

Definition monthly_sum (data : list Row.t) : list (Z * Z) :=
  grouper_month_sum Row.date Row.enrolments data.

Definition detect_seasonal_pattern (data : list Row.t) (period : Z)
  : Program (Outcome SeasonalPattern) :=
  let monthly_data := monthly_sum data in
  if Z.of_nat (List.length monthly_data) <? 2 * period then
    Ret (Returned
           (InsufficientData "Insufficient data for seasonal decomposition"
              (2 * period) (Z.of_nat (List.length monthly_data))))
  else
    Call_seasonal_decompose monthly_data "additive" period "freq"
      (fun decomposition =>
         match decomposition with
         | Returned d =>
             Ret (Returned (Components (dr_trend d) (dr_seasonal d)
                              (dr_resid d) (dr_observed d)))
         | Raised e => Ret (Raised e)
         end).

Definition descending (a b : Z * R) : Prop := (snd b <= snd a)%R.

Definition identify_peak_months (data : list Row.t) (out : list (Z * R))
  : Prop :=
  let monthly_avg := groupby_mean Row.month Row.enrolments data in
  sort_values descending monthly_avg out.

Definition identify_peak_quarters (data : list Row.t) (out : list (Z * R))
  : Prop :=
  let quarterly_avg := groupby_mean Row.quarter Row.enrolments data in
  sort_values descending quarterly_avg out.

Definition calculate_seasonality_strength (data : list Row.t) : float64 :=
  let monthly_avg := map snd (groupby_mean Row.month Row.enrolments data) in
  let cv := np_div (series_std monthly_avg) (series_mean monthly_avg) in
  py_min cv (Fnum 1).

(** The [z_score] column of the monthly table. *)
Definition z_scores (monthly : list (Z * Z)) : list ((Z * Z) * float64) :=
  let enrolments := map (fun b => IZR (snd b)) monthly in
  let mean_enrolments := series_mean enrolments in
  let std_enrolments := series_std enrolments in
  map (fun b =>
         (b, np_div (np_sub (Fnum (IZR (snd b))) mean_enrolments)
               std_enrolments))
      monthly.

Definition anomaly_of (row : (Z * Z) * float64) : Anomaly.t :=
  {| Anomaly.date := strftime_Ym (fst (fst row));
     Anomaly.enrolments := snd (fst row);
     Anomaly.z_score := snd row;
     Anomaly.type :=
       if np_gt (snd row) (Fnum 0) then Anomaly.spike else Anomaly.drop |}.

Definition detect_anomalous_periods (data : list Row.t)
    (threshold : float64) : list Anomaly.t :=
  let monthly := z_scores (monthly_sum data) in
  let anomalies :=
    filter (fun row => np_gt (np_abs (snd row)) threshold) monthly in
  map anomaly_of anomalies.

Record SeasonalSummary := {
  peak_months : list (Z * R);
  peak_quarters : list (Z * R);
  seasonality_strength : float64;
  anomalous_periods : list Anomaly.t;
  total_enrolments : Z;
  average_monthly_enrolments : float64
}.

Definition get_seasonal_summary (data : list Row.t) (s : SeasonalSummary)
  : Prop :=
  identify_peak_months data (peak_months s) /\
  identify_peak_quarters data (peak_quarters s) /\
  seasonality_strength s = calculate_seasonality_strength data /\
  anomalous_periods s = detect_anomalous_periods data (Fnum 2) /\
  total_enrolments s = sum_int64 (map Row.enrolments data) /\
  average_monthly_enrolments s =
    series_mean (map (fun b => IZR (snd b)) (monthly_sum data)).

End SeasonalTrendDetector.

Import SeasonalTrendDetector.

(** ** One admissible sort *)

(** Insertion into a sorted list, before the first element that is not
    smaller: a stable sort, one of the behaviours [sort_values] may
    show. *)
Section InsertionSort.

Context {A : Type} (le : A -> A -> Prop).
Context (le_dec : forall a b, {le a b} + {le b a}).

Fixpoint insert_sorted (x : A) (l : list A) : list A :=
  match l with
  | [] => [x]
  | y :: l' => if le_dec x y then x :: l else y :: insert_sorted x l'
  end.

Definition insertion_sort (l : list A) : list A :=
  fold_right insert_sorted [] l.

End InsertionSort.

(** Turns the boolean date order into linear arithmetic. *)
Ltac date_order :=
  unfold date_le, date_leb;
  rewrite ?Bool.orb_true_iff, ?Bool.andb_true_iff, ?Bool.orb_true_iff,
    ?Bool.andb_true_iff, ?Z.ltb_lt, ?Z.eqb_eq, ?Z.leb_le.

Definition by_date_dec (a b : InputRow.t) : {by_date a b} + {by_date b a}.
Proof.
  unfold by_date.
  destruct (date_leb (InputRow.date a) (InputRow.date b)) eqn:E.
  - left. exact E.
  - right. apply Bool.not_true_iff_false in E. revert E. date_order. lia.
Defined.

Definition descending_dec (a b : Z * R) : {descending a b} + {descending b a}.
Proof.
  unfold descending. destruct (Rle_lt_dec (snd b) (snd a)) as [H|H].
  - left. exact H.
  - right. apply Rlt_le. exact H.
Defined.

(** A detector state built with the stable sort. *)
Definition construct (rows : list InputRow.t) : list Row.t :=
  _prepare_data (insertion_sort by_date by_date_dec rows).

(** A summary built with the stable sort. *)
Definition summary_of (data : list Row.t) : SeasonalSummary :=
  {| peak_months :=
       insertion_sort descending descending_dec
         (groupby_mean Row.month Row.enrolments data);
     peak_quarters :=
       insertion_sort descending descending_dec
         (groupby_mean Row.quarter Row.enrolments data);
     seasonality_strength := calculate_seasonality_strength data;
     anomalous_periods := detect_anomalous_periods data (Fnum 2);
     total_enrolments := sum_int64 (map Row.enrolments data);
     average_monthly_enrolments :=
       series_mean (map (fun b => IZR (snd b)) (monthly_sum data)) |}.

(** ** The frame handed to the constructor *)

(** The [date] column of the frame given to the constructor either has a
    datetime dtype already, or it is an object column of strings, which
    [_prepare_data] parses only after the constructor has sorted the
    frame. *)
Module DataFrame.

Inductive t :=
| Datetime (rows : list InputRow.t)
| Text (rows : list (string * Z)).

End DataFrame.

(** The constructor on either kind of frame.  [SeasonalTrendDetector]'s
    [__init__] and [_prepare_data] above are its two steps on a frame
    whose dates are datetime values. *)
Module Constructor.

(** Python's order on [str]: by code point, a proper prefix first. *)
Definition by_text (a b : string * Z) : Prop :=
  (fst a <=? fst b)%string = true.

Section ToDatetime.

(** [pd.to_datetime] on a column of strings: one date per string, or
    [None] when it raises. *)
Variable to_datetime : list string -> option (list Date).

(** [data.sort_values('date')]: the column is compared as it is, dates as
    dates and strings as strings. *)
Definition sort_values_date (df sorted : DataFrame.t) : Prop :=
  match df, sorted with
  | DataFrame.Datetime rows, DataFrame.Datetime out =>
      sort_values by_date rows out
  | DataFrame.Text rows, DataFrame.Text out => sort_values by_text rows out
  | _, _ => False
  end.

(** Lines 30-31, [if not is_datetime64_any_dtype(...)]: a column of
    datetime values is left as it is, a column of strings is parsed. *)
Definition ensure_datetime (df : DataFrame.t) : option (list InputRow.t) :=
  match df with
  | DataFrame.Datetime rows => Some rows
  | DataFrame.Text rows =>
      match to_datetime (map fst rows) with
      | Some dates =>
          if (List.length dates =? List.length rows)%nat
          then Some (map (fun p => InputRow.mk (fst p) (snd p))
                       (combine dates (map snd rows)))
          else None
      | None => None
      end
  end.

Definition _prepare_data (df : DataFrame.t) : option (list Row.t) :=
  option_map SeasonalTrendDetector._prepare_data (ensure_datetime df).

(** [__init__]: [data] is a value [self.data] may hold after construction
    from [df]; there is none when [pd.to_datetime] raises. *)
Definition __init__ (df : DataFrame.t) (data : list Row.t) : Prop :=
  exists sorted, sort_values_date df sorted /\ _prepare_data sorted = Some data.

End ToDatetime.

End Constructor.

Definition by_text_dec (a b : string * Z)
  : {Constructor.by_text a b} + {Constructor.by_text b a}.
Proof.
  unfold Constructor.by_text.
  destruct ((fst a <=? fst b)%string) eqn:E.
  - left. reflexivity.
  - right. destruct (String.leb_total (fst a) (fst b)) as [H|H];
      [congruence|exact H].
Defined.

(** The values of the date column are pairwise distinct. *)
Definition distinct_dates (df : DataFrame.t) : Prop :=
  match df with
  | DataFrame.Datetime rows => NoDup (map InputRow.date rows)
  | DataFrame.Text rows => NoDup (map fst rows)
  end.

(** The frame sorted on its date column by the stable sort. *)
Definition stable_sort (df : DataFrame.t) : DataFrame.t :=
  match df with
  | DataFrame.Datetime rows =>
      DataFrame.Datetime (insertion_sort by_date by_date_dec rows)
  | DataFrame.Text rows =>
      DataFrame.Text (insertion_sort Constructor.by_text by_text_dec rows)
  end.

(** ** Vocabulary of the properties *)

(** An integer an [int64] holds. *)
Definition fits_int64 (z : Z) : Prop := - 2 ^ 63 <= z < 2 ^ 63.

(** [t] is what adding up [xs] in [int64] arithmetic gives: the value in
    the [int64] range that differs from the sum by a multiple of 2^64. *)
Definition is_int64_sum (xs : list Z) (t : Z) : Prop :=
  - 2 ^ 63 <= t < 2 ^ 63 /\ (t - fold_right Z.add 0 xs) mod 2 ^ 64 = 0.

(** The calendar month a prepared row falls in. *)
Definition row_month (r : Row.t) : Z := month_index (Row.date r).

Definition date_eqb (a b : Date) : bool :=
  (Calendar.year a =? Calendar.year b) &&
  (Calendar.month a =? Calendar.month b) &&
  (Calendar.day a =? Calendar.day b).

Definition rows_by_date (a b : Row.t) : Prop :=
  date_le (Row.date a) (Row.date b).

(** Rows with equal timestamps keep the relative order they had in the
    input table. *)
Definition ties_keep_order (rows : list InputRow.t) (data : list Row.t)
  : Prop :=
  forall d,
    filter (fun r => date_eqb (Row.date r) d) data =
    filter (fun r => date_eqb (Row.date r) d) (_prepare_data rows).

(** The z-score as the specification words it: the mean, the sample
    standard deviation (dividing by N - 1), and their quotient. *)
Definition spec_mean (xs : list R) : R :=
  (sum_float xs / INR (List.length xs))%R.

Definition spec_std (xs : list R) : R :=
  sqrt (sum_float (map (fun x => (x - spec_mean xs) ^ 2)%R xs)
        / INR (List.length xs - 1)).

Definition spec_z_score (xs : list R) (x : R) : R :=
  ((x - spec_mean xs) / spec_std xs)%R.

(** The monthly means as a float series, in ascending month order. *)
Definition month_means (data : list Row.t) : list R :=
  map snd (groupby_mean Row.month Row.enrolments data).

(** The monthly totals as a float series. *)
Definition monthly_totals (data : list Row.t) : list R :=
  map (fun b => IZR (snd b)) (monthly_sum data).

(** Chronological order of the rows of the scored monthly table. *)
Definition earlier_month (a b : (Z * Z) * float64) : Prop :=
  fst (fst a) < fst (fst b).

(** What a record [a] says about the month [m] it stands for: the month
    lies in the span of the table, the record carries its label and the
    [int64] sum of the counts of its rows, and a score that is a number
    beyond the threshold, whose sign decides between spike and drop. *)
Definition record_of_month (data : list Row.t) (threshold : float64)
    (m : Z) (a : Anomaly.t) : Prop :=
  (exists x y, In x data /\ In y data /\ row_month x <= m <= row_month y) /\
  Anomaly.date a = strftime_Ym m /\
  is_int64_sum (map Row.enrolments (group row_month m data))
    (Anomaly.enrolments a) /\
  exists z : R,
    Anomaly.z_score a = Fnum z /\
    (forall t, threshold = Fnum t -> (t < Rabs z)%R) /\
    (Anomaly.type a = Anomaly.spike <-> (0 < z)%R) /\
    (Anomaly.type a = Anomaly.drop <-> (z <= 0)%R).

(** Days of the year that precede a month: the calendar's own table. *)
Definition days_before_month (y m : Z) : Z :=
  (if m =? 1 then 0 else if m =? 2 then 31 else if m =? 3 then 59
   else if m =? 4 then 90 else if m =? 5 then 120 else if m =? 6 then 151
   else if m =? 7 then 181 else if m =? 8 then 212 else if m =? 9 then 243
   else if m =? 10 then 273 else if m =? 11 then 304 else 334)
  + (if is_leap y && (2 <? m) then 1 else 0).

(** The columns [_prepare_data] adds, as the calendar defines them. *)
Definition calendar_columns (r : Row.t) : Prop :=
  1 <= Row.month r <= 12 /\
  Row.year r = Calendar.year (Row.date r) /\
  Row.month r = Calendar.month (Row.date r) /\
  Row.quarter r = (Row.month r - 1) / 3 + 1 /\
  1 <= Row.quarter r <= 4 /\
  1 <= Row.week r <= 53 /\
  Row.day_of_year r
    = days_before_month (Row.year r) (Row.month r) + Calendar.day (Row.date r) /\
  1 <= Row.day_of_year r <= (if is_leap (Row.year r) then 366 else 365).

(** A call of [seasonal_decompose] with its arguments. *)
Record DecomposeCall := {
  call_x : list (Z * Z);
  call_model : string;
  call_period : Z;
  call_extrapolate_trend : string
}.

(** The calls a program makes, in order. *)
Fixpoint call_log {A : Type}
    (lib : list (Z * Z) -> Z -> Outcome DecomposeResult)
    (p : Program A) : list DecomposeCall :=
  match p with
  | Ret _ => []
  | Call_seasonal_decompose x model period extrapolate_trend k =>
      {| call_x := x; call_model := model; call_period := period;
         call_extrapolate_trend := extrapolate_trend |}
      :: call_log lib (k (lib x period))
  end.

(** [a] and [b] are rows of the earliest and of the latest month. *)
Definition month_extremes (data : list Row.t) (a b : Row.t) : Prop :=
  In a data /\ In b data /\
  forall r, In r data -> row_month a <= row_month r <= row_month b.

(** The sum of the squares of a series. *)
Definition sum_squares (l : list R) : R :=
  sum_float (map (fun y => y * y)%R l).

(** The means of a peak table, each weighted by the number of rows of its
    key. *)
Definition weighted_total (key : Row.t -> Z) (data : list Row.t)
    (out : list (Z * R)) : R :=
  sum_float
    (map (fun kv => snd kv * INR (List.length (group key (fst kv) data)))%R
       out).

(** The first entry of a peak table holds the highest mean. *)
Definition head_is_peak (out : list (Z * R)) : Prop :=
  forall k v rest, out = (k, v) :: rest ->
    forall k' v', In (k', v') out -> (v' <= v)%R.

(** ** Sample tables *)

(** One row. *)
Definition single_row : list InputRow.t :=
  [InputRow.mk (mkDate 2023 1 15) 100].

(** January and March of one year, nothing in February. *)
Definition gap_rows : list InputRow.t :=
  [InputRow.mk (mkDate 2023 1 15) 10; InputRow.mk (mkDate 2023 3 10) 20].

(** Two months with the same total. *)
Definition flat_rows : list InputRow.t :=
  [InputRow.mk (mkDate 2023 1 15) 10; InputRow.mk (mkDate 2023 2 10) 10].

(** Eighteen rows that share one date, numbered 0 to 17 by their count. *)
Definition tie_rows : list InputRow.t :=
  map (fun c => InputRow.mk (mkDate 2023 1 1) c)
    [0; 1; 2; 3; 4; 5; 6; 7; 8; 9; 10; 11; 12; 13; 14; 15; 16; 17].

(** The same rows in the order an index quicksort with a median-of-three
    pivot and insertion sort on short ranges leaves them in. *)
Definition tie_rows_quicksorted : list InputRow.t :=
  map (fun c => InputRow.mk (mkDate 2023 1 1) c)
    [0; 15; 14; 13; 12; 11; 10; 9; 8; 7; 6; 5; 4; 3; 2; 1; 16; 17].

(** One row in each month of 2023, the count growing with the month. *)
Definition year_rows : list InputRow.t :=
  map (fun m => InputRow.mk (mkDate 2023 m 15) (10 * m))
    [1; 2; 3; 4; 5; 6; 7; 8; 9; 10; 11; 12].

(** Two months of 3 * 2^61 each: either fits an [int64], their sum does
    not. *)
Definition huge_rows : list InputRow.t :=
  [InputRow.mk (mkDate 2023 1 15) (3 * 2 ^ 61);
   InputRow.mk (mkDate 2023 2 10) (3 * 2 ^ 61)].

(** Two months whose counts are all zero. *)
Definition zero_rows : list InputRow.t :=
  [InputRow.mk (mkDate 2023 1 15) 0; InputRow.mk (mkDate 2023 2 10) 0].

(** ** The fixture of the test suite *)

(** The day after a date. *)
Definition next_day (d : Date) : Date :=
  if Calendar.day d <? days_in_month (Calendar.year d) (Calendar.month d)
  then mkDate (Calendar.year d) (Calendar.month d) (Calendar.day d + 1)
  else if Calendar.month d <? 12
       then mkDate (Calendar.year d) (Calendar.month d + 1) 1
       else mkDate (Calendar.year d + 1) 1 1.

(** [pd.date_range(start, periods=n, freq='D')] *)
Fixpoint date_range (start : Date) (n : nat) : list Date :=
  match n with
  | O => []
  | S k => start :: date_range (next_day start) k
  end.

(** [pd.date_range(start='2023-01-01', end='2025-12-31', freq='D')]: the
    1096 days of three years. *)
Definition sample_dates : list Date := date_range (mkDate 2023 1 1) 1096.

(** The fixture [sample_data]: one row per day, with the drawn counts
    [np.random.randint(50, 200, size=len(dates))]. *)
Definition sample_data (enrolments : list Z) : list InputRow.t :=
  map (fun p => InputRow.mk (fst p) (snd p)) (combine sample_dates enrolments).

(** What [randint(50, 200, size)] can draw. *)
Definition drawn (enrolments : list Z) : Prop :=
  List.length enrolments = List.length sample_dates /\
  Forall (fun c => 50 <= c < 200) enrolments.

(** * Properties *)

(** ** Calendar *)

Example iso_week_examples :
  iso_week (mkDate 2023 1 1) = 52 /\ iso_week (mkDate 2024 12 30) = 1 /\
  iso_week (mkDate 2020 12 31) = 53 /\ iso_week (mkDate 2026 11 3) = 45 /\
  day_of_year (mkDate 2024 12 31) = 366 /\ iso_weekday (mkDate 2026 11 3) = 2.
Proof. vm_compute. repeat split. Qed.

Example strftime_example :
  strftime_Ym (month_index (mkDate 2023 3 31)) = "2023-03"%string /\
  strftime_Ym (month_index (mkDate 999 9 30)) = "999-09"%string.
Proof. split; reflexivity. Qed.

Lemma month_index_roundtrip (d : Date) :
  1 <= Calendar.month d <= 12 ->
  index_year (month_index d) = Calendar.year d /\
  index_month (month_index d) = Calendar.month d.
Proof.
  intros H. unfold index_year, index_month, month_index.
  assert (E : Calendar.year d * 12 + (Calendar.month d - 1)
              = (Calendar.month d - 1) + Calendar.year d * 12) by lia.
  rewrite E, Z.div_add, Z.mod_add by lia.
  rewrite Z.div_small, Z.mod_small by lia. lia.
Qed.

(** Months follow the order of dates, so the earliest and the latest month
    of a table are the months of its earliest and latest date. *)
Lemma month_index_monotone (a b : Date) :
  1 <= Calendar.month a <= 12 -> 1 <= Calendar.month b <= 12 ->
  date_le a b -> month_index a <= month_index b.
Proof. unfold month_index. intros Ha Hb. date_order. lia. Qed.

(** ** Integer sums, key lists and monthly bins *)

Lemma wrap_int64_fits (z : Z) : fits_int64 z -> wrap_int64 z = z.
Proof.
  unfold fits_int64, wrap_int64. intros H.
  rewrite Z.mod_small; lia.
Qed.

Lemma wrap_int64_range (z : Z) : fits_int64 (wrap_int64 z).
Proof.
  unfold fits_int64, wrap_int64.
  pose proof (Z.mod_pos_bound (z + 2 ^ 63) (2 ^ 64) ltac:(lia)). lia.
Qed.

Lemma wrap_int64_congruent (z : Z) : (wrap_int64 z - z) mod 2 ^ 64 = 0.
Proof.
  unfold wrap_int64.
  pose proof (Z.div_mod (z + 2 ^ 63) (2 ^ 64) ltac:(lia)) as E.
  replace ((z + 2 ^ 63) mod 2 ^ 64 - 2 ^ 63 - z)
    with (- ((z + 2 ^ 63) / 2 ^ 64) * 2 ^ 64) by lia.
  apply Z.mod_mul. lia.
Qed.

Lemma sum_int64_spec (xs : list Z) : is_int64_sum xs (sum_int64 xs).
Proof.
  split; [apply wrap_int64_range|apply wrap_int64_congruent].
Qed.

(** Machine addition: reducing the summands first changes nothing. *)
Lemma wrap_int64_add (a b : Z) :
  wrap_int64 (wrap_int64 a + wrap_int64 b) = wrap_int64 (a + b).
Proof.
  unfold wrap_int64.
  assert (E : forall x, (x + 2 ^ 63) mod 2 ^ 64 - 2 ^ 63
                        = x - 2 ^ 64 * ((x + 2 ^ 63) / 2 ^ 64)).
  { intros x. pose proof (Z.div_mod (x + 2 ^ 63) (2 ^ 64) ltac:(lia)). lia. }
  rewrite (E a), (E b). f_equal.
  replace (a - 2 ^ 64 * ((a + 2 ^ 63) / 2 ^ 64)
           + (b - 2 ^ 64 * ((b + 2 ^ 63) / 2 ^ 64)) + 2 ^ 63)
    with (a + b + 2 ^ 63
          + (- ((a + 2 ^ 63) / 2 ^ 64) - (b + 2 ^ 63) / 2 ^ 64) * 2 ^ 64)
    by lia.
  apply Z.mod_add. lia.
Qed.

Lemma sum_float_IZR (xs : list Z) :
  sum_float (map IZR xs) = IZR (sum_int xs).
Proof.
  induction xs as [|x xs IH]; simpl.
  - reflexivity.
  - rewrite IH, plus_IZR. reflexivity.
Qed.

Lemma fold_min_lower (i : Z) (rest : list Z) :
  forall x, In x (i :: rest) -> fold_right Z.min i rest <= x.
Proof.
  induction rest as [|y rest IH]; simpl; intros x Hx.
  - destruct Hx as [<-|[]]. lia.
  - destruct Hx as [<-|[<-|Hx]].
    + specialize (IH i (or_introl eq_refl)). lia.
    + lia.
    + specialize (IH x (or_intror Hx)). lia.
Qed.

Lemma fold_max_upper (i : Z) (rest : list Z) :
  forall x, In x (i :: rest) -> x <= fold_right Z.max i rest.
Proof.
  induction rest as [|y rest IH]; simpl; intros x Hx.
  - destruct Hx as [<-|[]]. lia.
  - destruct Hx as [<-|[<-|Hx]].
    + specialize (IH i (or_introl eq_refl)). lia.
    + lia.
    + specialize (IH x (or_intror Hx)). lia.
Qed.

Lemma fold_min_attained (i : Z) (rest : list Z) :
  In (fold_right Z.min i rest) (i :: rest).
Proof.
  induction rest as [|y rest IH]; simpl.
  - now left.
  - destruct (Z.min_spec y (fold_right Z.min i rest)) as [[_ ->]|[_ ->]].
    + right. now left.
    + simpl in IH. tauto.
Qed.

Lemma fold_max_attained (i : Z) (rest : list Z) :
  In (fold_right Z.max i rest) (i :: rest).
Proof.
  induction rest as [|y rest IH]; simpl.
  - now left.
  - destruct (Z.max_spec y (fold_right Z.max i rest)) as [[_ ->]|[_ ->]].
    + simpl in IH. tauto.
    + right. now left.
Qed.

Lemma in_zrange (lo : Z) (n : nat) (m : Z) :
  In m (zrange lo n) <-> lo <= m < lo + Z.of_nat n.
Proof.
  unfold zrange. rewrite in_map_iff. split.
  - intros [i [<- Hi]]. apply in_seq in Hi. lia.
  - intros H. exists (Z.to_nat (m - lo)). split; [lia|].
    apply in_seq. lia.
Qed.

Lemma zrange_length (lo : Z) (n : nat) : List.length (zrange lo n) = n.
Proof. unfold zrange. now rewrite length_map, length_seq. Qed.

Lemma zrange_sorted (lo : Z) (n : nat) : StronglySorted Z.lt (zrange lo n).
Proof.
  unfold zrange. generalize 0%nat as s.
  induction n as [|n IH]; intros s; simpl; constructor.
  - apply IH.
  - apply Forall_forall. intros m Hm. apply in_map_iff in Hm.
    destruct Hm as [i [<- Hi]]. apply in_seq in Hi. lia.
Qed.

Lemma StronglySorted_lt_NoDup (l : list Z) : StronglySorted Z.lt l -> NoDup l.
Proof.
  induction 1 as [|x l _ IH Hx]; constructor; auto.
  intros Hin. rewrite Forall_forall in Hx. specialize (Hx _ Hin). lia.
Qed.

Lemma StronglySorted_map_iff {A B : Type} (R : B -> B -> Prop) (g : A -> B)
    (l : list A) :
  StronglySorted R (map g l) <-> StronglySorted (fun a b => R (g a) (g b)) l.
Proof.
  induction l as [|a l IH]; simpl.
  - split; constructor.
  - split; intros H; inversion H; subst; constructor.
    + now apply IH.
    + rewrite Forall_map in *. assumption.
    + now apply IH.
    + rewrite Forall_map. assumption.
Qed.

Lemma StronglySorted_filter {A : Type} (R : A -> A -> Prop) (f : A -> bool)
    (l : list A) :
  StronglySorted R l -> StronglySorted R (filter f l).
Proof.
  induction 1 as [|a l Hs IH Ha]; simpl; [constructor|].
  destruct (f a); [|exact IH].
  constructor; [exact IH|].
  rewrite Forall_forall in *. intros x Hx. apply filter_In in Hx.
  now apply Ha.
Qed.

Lemma last_cons {B : Type} (y i : B) (rest : list B) :
  last (y :: rest) i = last rest y.
Proof.
  revert y i. induction rest as [|z rest IH]; intros y i; [reflexivity|].
  change (last (y :: z :: rest) i) with (last (z :: rest) i).
  now rewrite (IH z i), (IH z y).
Qed.

Lemma sum_int_map_add {B : Type} (f g : B -> Z) (l : list B) :
  sum_int (map (fun x => f x + g x) l) = sum_int (map f l) + sum_int (map g l).
Proof. induction l as [|x l IH]; simpl; lia. Qed.

Lemma sum_int_indicator (k v : Z) (ms : list Z) :
  NoDup ms ->
  sum_int (map (fun m => if k =? m then v else 0) ms) =
  if in_dec Z.eq_dec k ms then v else 0.
Proof.
  induction 1 as [|m ms Hm Hnd IH]; simpl.
  - reflexivity.
  - rewrite IH. destruct (Z.eqb_spec k m) as [->|Hne].
    + destruct (Z.eq_dec m m) as [e|ne]; [|congruence].
      destruct (in_dec Z.eq_dec m ms); [contradiction|lia].
    + destruct (Z.eq_dec m k) as [e|ne]; [congruence|].
      destruct (in_dec Z.eq_dec k ms); lia.
Qed.

Section GroupFacts.

Context {A : Type} (key val : A -> Z).

Lemma group_cons (k : Z) (r : A) (df : list A) :
  sum_int (map val (group key k (r :: df))) =
  (if key r =? k then val r else 0) + sum_int (map val (group key k df)).
Proof.
  unfold group. simpl. destruct (key r =? k); simpl; lia.
Qed.

(** Every row is counted in exactly one group. *)
Lemma groups_partition_sum (ks : list Z) (df : list A) :
  NoDup ks ->
  (forall r, In r df -> In (key r) ks) ->
  sum_int (map (fun k => sum_int (map val (group key k df))) ks) =
  sum_int (map val df).
Proof.
  intros Hnd. induction df as [|r df IH]; intros Hin.
  - simpl. clear Hnd Hin.
    induction ks as [|k ks IHk]; simpl; [reflexivity|]. now rewrite IHk.
  - rewrite (map_ext _ _ (fun k => group_cons k r df)).
    rewrite sum_int_map_add, IH by (intros; apply Hin; now right).
    rewrite sum_int_indicator by assumption.
    destruct (in_dec Z.eq_dec (key r) ks) as [_|Hn].
    + reflexivity.
    + exfalso. apply Hn, Hin. now left.
Qed.

Lemma group_empty (k : Z) (df : list A) :
  (forall r, In r df -> key r <> k) -> group key k df = [].
Proof.
  induction df as [|r df IH]; intros H; simpl; [reflexivity|].
  destruct (Z.eqb_spec (key r) k) as [e|_].
  - exfalso. apply (H r); [now left|exact e].
  - apply IH. intros; apply H; now right.
Qed.

End GroupFacts.

Section GrouperFacts.

Context {A : Type} (date : A -> Date) (val : A -> Z).

Lemma grouper_keys (df : list A) :
  map fst (grouper_month_sum date val df) =
  match map (fun r => month_index (date r)) df with
  | [] => []
  | i :: rest =>
      zrange (fold_right Z.min i rest)
        (Z.to_nat (fold_right Z.max i rest - fold_right Z.min i rest + 1))
  end.
Proof.
  unfold grouper_month_sum.
  destruct (map (fun r => month_index (date r)) df) as [|i rest];
    [reflexivity|].
  rewrite map_map. simpl. apply map_id.
Qed.

Lemma grouper_keys_sorted (df : list A) :
  StronglySorted Z.lt (map fst (grouper_month_sum date val df)).
Proof.
  rewrite grouper_keys.
  destruct (map _ df); [constructor|apply zrange_sorted].
Qed.

(** The bins are the months between two months that hold a row. *)
Lemma grouper_keys_span (df : list A) (m : Z) :
  In m (map fst (grouper_month_sum date val df)) <->
  exists a b, In a df /\ In b df /\
    month_index (date a) <= m <= month_index (date b).
Proof.
  rewrite grouper_keys.
  destruct (map (fun r => month_index (date r)) df) as [|i rest] eqn:E.
  - destruct df; [|discriminate]. split; [intros []|].
    intros [a [_ [[] _]]].
  - rewrite in_zrange. split.
    + intros H.
      pose proof (fold_min_attained i rest) as Hlo.
      pose proof (fold_max_attained i rest) as Hhi.
      rewrite <- E in Hlo, Hhi.
      apply in_map_iff in Hlo. destruct Hlo as [a [Ha Hina]].
      apply in_map_iff in Hhi. destruct Hhi as [b [Hb Hinb]].
      exists a, b. repeat split; auto; lia.
    + intros [a [b [Ha [Hb Hm]]]].
      assert (Hia : In (month_index (date a)) (i :: rest))
        by (rewrite <- E; apply in_map_iff; eauto).
      assert (Hib : In (month_index (date b)) (i :: rest))
        by (rewrite <- E; apply in_map_iff; eauto).
      pose proof (fold_min_lower i rest _ Hia).
      pose proof (fold_max_upper i rest _ Hib).
      lia.
Qed.

Lemma grouper_total (df : list A) (m t : Z) :
  In (m, t) (grouper_month_sum date val df) ->
  t = sum_int64 (map val (group (fun r => month_index (date r)) m df)).
Proof.
  unfold grouper_month_sum.
  destruct (map (fun r => month_index (date r)) df); [intros []|].
  intros H. apply in_map_iff in H. destruct H as [m' [H _]].
  now inversion H.
Qed.

(** As long as no bin overflows, the bin totals add up to the sum of the
    whole column. *)
Lemma grouper_sum_total (df : list A) :
  (forall m, fits_int64
     (sum_int (map val (group (fun r => month_index (date r)) m df)))) ->
  sum_int (map snd (grouper_month_sum date val df)) = sum_int (map val df).
Proof.
  intros Hfit.
  pose proof (grouper_keys_sorted df) as Hs.
  pose proof (grouper_keys_span df) as Hspan.
  assert (Hsnd : map snd (grouper_month_sum date val df) =
    map (fun m => sum_int (map val
           (group (fun r => month_index (date r)) m df)))
        (map fst (grouper_month_sum date val df))).
  { unfold grouper_month_sum.
    destruct (map (fun r => month_index (date r)) df); [reflexivity|].
    rewrite !map_map. apply map_ext. intros m. simpl.
    apply wrap_int64_fits, Hfit. }
  rewrite Hsnd. apply groups_partition_sum.
  - now apply StronglySorted_lt_NoDup.
  - intros r Hr. apply Hspan. exists r, r. repeat split; auto; lia.
Qed.

End GrouperFacts.

Lemma sorted_last_greatest (i : Z) (rest : list Z) :
  StronglySorted Z.le (i :: rest) ->
  forall x, In x (i :: rest) -> x <= last rest i.
Proof.
  revert i. induction rest as [|y rest IH]; intros i Hs x Hx.
  - destruct Hx as [<-|[]]. simpl. lia.
  - inversion Hs as [|? ? Hs' Hall]; subst.
    rewrite last_cons. destruct Hx as [<-|Hx].
    + rewrite Forall_forall in Hall.
      pose proof (Hall y (or_introl eq_refl)).
      pose proof (IH y Hs' y (or_introl eq_refl)). lia.
    + now apply IH.
Qed.

Lemma last_in (i : Z) (rest : list Z) : In (last rest i) (i :: rest).
Proof.
  revert i. induction rest as [|y rest IH]; intros i; [now left|].
  right. rewrite last_cons. apply IH.
Qed.

(** On a table in date order the bins run from the month of the first row
    to the month of the last row. *)
Lemma monthly_bins_first_to_last (first : Row.t) (rest : list Row.t) :
  (forall r, In r (first :: rest) -> 1 <= Calendar.month (Row.date r) <= 12) ->
  StronglySorted rows_by_date (first :: rest) ->
  map fst (monthly_sum (first :: rest)) =
  zrange (row_month first)
    (Z.to_nat (row_month (last rest first) - row_month first + 1)).
Proof.
  intros Hvalid Hsorted. unfold monthly_sum. rewrite grouper_keys.
  change (map (fun r => month_index (Row.date r)) (first :: rest))
    with (row_month first :: map row_month rest).
  assert (Hs : StronglySorted Z.le (map row_month (first :: rest))).
  { apply StronglySorted_map_iff.
    revert Hvalid. induction Hsorted as [|a l Hl IH Ha]; intros Hvalid;
      constructor.
    - apply IH. intros r Hr. apply Hvalid. now right.
    - rewrite Forall_forall in *. intros r Hr.
      apply month_index_monotone; [apply Hvalid; now left| |now apply Ha].
      apply Hvalid. now right. }
  simpl in Hs.
  assert (Hlast : row_month (last rest first)
                  = last (map row_month rest) (row_month first)).
  { clear. revert first. induction rest as [|y rest IH]; intros first;
      [reflexivity|].
    change (map row_month (y :: rest)) with (row_month y :: map row_month rest).
    rewrite !last_cons. apply IH. }
  assert (Emin : fold_right Z.min (row_month first) (map row_month rest)
                 = row_month first).
  { inversion Hs as [|? ? _ Hall]; subst.
    pose proof (fold_min_lower (row_month first) (map row_month rest)
                  (row_month first) (or_introl eq_refl)).
    destruct (fold_min_attained (row_month first) (map row_month rest))
      as [E|Hin]; [now rewrite <- E|].
    rewrite Forall_forall in Hall. specialize (Hall _ Hin). lia. }
  assert (Emax : fold_right Z.max (row_month first) (map row_month rest)
                 = row_month (last rest first)).
  { rewrite Hlast.
    pose proof (sorted_last_greatest _ _ Hs _
                  (fold_max_attained (row_month first) (map row_month rest))).
    pose proof (fold_max_upper (row_month first) (map row_month rest) _
                  (last_in (row_month first) (map row_month rest))).
    lia. }
  cbv iota. now rewrite Emin, Emax.
Qed.

(** ** The constructor accepts a table that is already in date order *)

Lemma init_of_sorted (rows : list InputRow.t) :
  StronglySorted by_date rows -> __init__ rows (_prepare_data rows).
Proof.
  intros Hs. exists rows. split; [|reflexivity].
  split; [apply Permutation_refl|assumption].
Qed.

Lemma monthly_sum_gap_rows :
  monthly_sum (_prepare_data gap_rows) = [(24276, 10); (24277, 0); (24278, 20)].
Proof. reflexivity. Qed.

(** ** Decomposition guard *)

(** C1. Whenever the monthly table has fewer than [2 * period] bins,
    [detect_seasonal_pattern] returns the insufficient-data result with
    [required_periods = 2 * period] and [available_periods] the number of
    bins, and [seasonal_decompose] is not called, whatever the library
    would answer.  (No sign condition on [period] is needed.) *)
Theorem detect_seasonal_pattern_insufficient
    (data : list Row.t) (period : Z) :
  Z.of_nat (List.length (monthly_sum data)) < 2 * period ->
  detect_seasonal_pattern data period =
    Ret (Returned
           (InsufficientData "Insufficient data for seasonal decomposition"
              (2 * period) (Z.of_nat (List.length (monthly_sum data))))) /\
  forall lib, invocations lib (detect_seasonal_pattern data period) = 0%nat.
Proof.
  intros Hlt. unfold detect_seasonal_pattern.
  apply Z.ltb_lt in Hlt. rewrite Hlt. split; [reflexivity|].
  intros lib. reflexivity.
Qed.

Lemma detect_seasonal_pattern_insufficient_witness :
  Z.of_nat (List.length (monthly_sum (_prepare_data gap_rows))) < 2 * 12 /\
  detect_seasonal_pattern (_prepare_data gap_rows) 12 =
    Ret (Returned
           (InsufficientData "Insufficient data for seasonal decomposition"
              24 3)) /\
  forall lib,
    invocations lib (detect_seasonal_pattern (_prepare_data gap_rows) 12)
    = 0%nat.
Proof.
  assert (H : Z.of_nat (List.length (monthly_sum (_prepare_data gap_rows)))
              < 2 * 12) by (vm_compute; reflexivity).
  split; [exact H|].
  exact (detect_seasonal_pattern_insufficient (_prepare_data gap_rows) 12 H).
Defined.

(** With enough bins the library is called exactly once, on the monthly
    table and with the caller's period. *)
Lemma detect_seasonal_pattern_sufficient (data : list Row.t) (period : Z) :
  2 * period <= Z.of_nat (List.length (monthly_sum data)) ->
  forall lib,
    invocations lib (detect_seasonal_pattern data period) = 1%nat /\
    run lib (detect_seasonal_pattern data period) =
      match lib (monthly_sum data) period with
      | Returned d =>
          Returned (Components (dr_trend d) (dr_seasonal d) (dr_resid d)
                      (dr_observed d))
      | Raised e => Raised e
      end.
Proof.
  intros Hge lib. unfold detect_seasonal_pattern.
  destruct (Z.ltb_spec (Z.of_nat (List.length (monthly_sum data))) (2 * period));
    [lia|].
  simpl. destruct (lib (monthly_sum data) period); split; reflexivity.
Qed.

(** ** Monthly bins *)

(** C9, as the specification words it, fails: with rows in January and in
    March only, the monthly table has a February bin whose total is 0, and
    that bin enters the mean (10 instead of 15). *)
Lemma monthly_bins_fill_gaps_counterexample :
  __init__ gap_rows (_prepare_data gap_rows) /\
  monthly_sum (_prepare_data gap_rows) =
    [(24276, 10); (24277, 0); (24278, 20)] /\
  series_mean (map (fun b => IZR (snd b))
                 (monthly_sum (_prepare_data gap_rows))) = Fnum 10 /\
  ~ (forall m, In m (map fst (monthly_sum (_prepare_data gap_rows))) ->
       exists r, In r (_prepare_data gap_rows) /\ row_month r = m).
Proof.
  split; [|split; [|split]].
  - apply init_of_sorted. unfold gap_rows.
    repeat constructor.
  - reflexivity.
  - rewrite monthly_sum_gap_rows. unfold series_mean. simpl.
    f_equal. lra.
  - intros H. destruct (H 24277) as [r [Hr Hm]].
    + rewrite monthly_sum_gap_rows. simpl. tauto.
    + simpl in Hr. destruct Hr as [<-|[<-|[]]]; discriminate Hm.
Qed.

(** C9, amended.  The monthly table has one bin for every calendar month
    from the month of the earliest row to the month of the latest row, in
    ascending order and without repetition; the total of a bin is the
    [int64] sum of the counts of the rows of that month: their sum
    whenever it fits in an [int64], that sum reduced modulo 2^64
    otherwise, and hence 0 for a month without rows.  The summary's
    average is the mean over all these bins. *)
Theorem monthly_bins_span (data : list Row.t) :
  (forall m, In m (map fst (monthly_sum data)) <->
     exists a b, In a data /\ In b data /\
       row_month a <= m <= row_month b) /\
  StronglySorted Z.lt (map fst (monthly_sum data)) /\
  (forall m t, In (m, t) (monthly_sum data) ->
     is_int64_sum (map Row.enrolments (group row_month m data)) t /\
     (fits_int64 (sum_int (map Row.enrolments (group row_month m data))) ->
      t = sum_int (map Row.enrolments (group row_month m data))) /\
     ((forall r, In r data -> row_month r <> m) -> t = 0)) /\
  (forall s, get_seasonal_summary data s ->
     average_monthly_enrolments s =
       series_mean (map (fun b => IZR (snd b)) (monthly_sum data))).
Proof.
  split; [|split; [|split]].
  - intros m. apply grouper_keys_span.
  - apply grouper_keys_sorted.
  - intros m t Hin. apply grouper_total in Hin. split; [|split].
    + rewrite Hin. apply sum_int64_spec.
    + intros Hfit. rewrite Hin. apply wrap_int64_fits, Hfit.
    + intros Hnone. rewrite Hin.
      rewrite (group_empty (fun r => month_index (Row.date r)) m data Hnone).
      reflexivity.
  - intros s Hs. apply Hs.
Qed.

(** ** Summary totals *)

(** Non-negative counts: a bin holds no more than the whole column. *)
Lemma group_sum_bounds {A : Type} (key val : A -> Z) (k : Z) (df : list A) :
  (forall r, In r df -> 0 <= val r) ->
  0 <= sum_int (map val (group key k df)) <= sum_int (map val df).
Proof.
  induction df as [|r df IH]; intros Hpos; simpl; [lia|].
  pose proof (Hpos r (or_introl eq_refl)).
  specialize (IH (fun x Hx => Hpos x (or_intror Hx))).
  unfold group in *. destruct (key r =? k); simpl; lia.
Qed.

Lemma monthly_sum_huge_rows :
  monthly_sum (_prepare_data huge_rows)
  = [(24276, 3 * 2 ^ 61); (24277, 3 * 2 ^ 61)].
Proof. reflexivity. Qed.

(** Non-negative counts that add up to less than 2^63 overflow no sum. *)
Lemma nonneg_counts_fit (data : list Row.t) :
  (forall r, In r data -> 0 <= Row.enrolments r) ->
  sum_int (map Row.enrolments data) < 2 ^ 63 ->
  (forall m, fits_int64
     (sum_int (map Row.enrolments (group row_month m data)))) /\
  fits_int64 (sum_int (map Row.enrolments data)).
Proof.
  intros Hpos Hlt. split.
  - intros m.
    pose proof (group_sum_bounds row_month Row.enrolments m data Hpos).
    unfold fits_int64. lia.
  - pose proof (group_sum_bounds (fun _ => 0) Row.enrolments 0 data Hpos).
    unfold fits_int64. lia.
Qed.

(** C10, amended.  With at least one monthly bin and no [int64] sum
    overflowing, that is, when the counts of every calendar month and the
    counts of the whole table add up to values an [int64] holds, the
    summary's average monthly count is a number, and multiplied by the
    number of bins it gives the summary's total count (exactly, in real
    arithmetic).  Non-negative counts that add up to less than 2^63 are
    such a table. *)
Theorem average_times_bins_is_total (data : list Row.t) (s : SeasonalSummary) :
  get_seasonal_summary data s ->
  monthly_sum data <> [] ->
  (forall m, fits_int64
     (sum_int (map Row.enrolments (group row_month m data)))) ->
  fits_int64 (sum_int (map Row.enrolments data)) ->
  exists avg : R,
    average_monthly_enrolments s = Fnum avg /\
    (avg * INR (List.length (monthly_sum data)) = IZR (total_enrolments s))%R.
Proof.
  intros (_ & _ & _ & _ & Htot & Havg) Hne Hbins Hall.
  exists (IZR (sum_int (map Row.enrolments data))
          / INR (List.length (monthly_sum data)))%R.
  split.
  - rewrite Havg. unfold series_mean.
    destruct (map (fun b => IZR (snd b)) (monthly_sum data)) eqn:E2.
    + destruct (monthly_sum data); [congruence|discriminate].
    + rewrite <- E2. f_equal.
      rewrite <- (map_map snd IZR), sum_float_IZR, length_map, length_map.
      unfold monthly_sum at 1. rewrite (grouper_sum_total _ _ _ Hbins).
      reflexivity.
  - rewrite Htot. unfold sum_int64. rewrite (wrap_int64_fits _ Hall). field.
    apply not_0_INR. destruct (monthly_sum data); [congruence|discriminate].
Qed.

(** ** Sorting *)

Section InsertionSortFacts.

Context {A : Type} (le : A -> A -> Prop).
Context (le_dec : forall a b, {le a b} + {le b a}).
Hypothesis le_trans : forall a b c, le a b -> le b c -> le a c.

Lemma insert_sorted_perm (x : A) (l : list A) :
  Permutation (x :: l) (insert_sorted le le_dec x l).
Proof.
  induction l as [|y l IH]; simpl.
  - apply Permutation_refl.
  - destruct (le_dec x y).
    + apply Permutation_refl.
    + apply perm_trans with (y :: x :: l).
      * apply perm_swap.
      * apply perm_skip, IH.
Qed.

Lemma insert_sorted_sorted (x : A) (l : list A) :
  StronglySorted le l -> StronglySorted le (insert_sorted le le_dec x l).
Proof.
  induction 1 as [|y l Hs IH Hy]; simpl.
  - repeat constructor.
  - destruct (le_dec x y) as [Hxy|Hyx].
    + constructor.
      * now constructor.
      * constructor; [exact Hxy|].
        eapply Forall_impl; [|exact Hy]. intros z Hz. eauto.
    + constructor; [exact IH|].
      apply Forall_forall. intros z Hz.
      apply (Permutation_in _ (Permutation_sym (insert_sorted_perm x l))) in Hz.
      destruct Hz as [<-|Hz]; [exact Hyx|].
      rewrite Forall_forall in Hy. now apply Hy.
Qed.

Lemma insertion_sort_spec (l : list A) :
  sort_values le l (insertion_sort le le_dec l).
Proof.
  unfold sort_values. induction l as [|x l [IHp IHs]]; simpl.
  - split; constructor.
  - split.
    + apply perm_trans with (x :: insertion_sort le le_dec l).
      * now apply perm_skip.
      * apply insert_sorted_perm.
    + now apply insert_sorted_sorted.
Qed.

End InsertionSortFacts.

Lemma by_date_trans (a b c : InputRow.t) :
  by_date a b -> by_date b c -> by_date a c.
Proof. unfold by_date. date_order. lia. Qed.

Lemma descending_trans (a b c : Z * R) :
  descending a b -> descending b c -> descending a c.
Proof. unfold descending. lra. Qed.

(** Construction always succeeds. *)
Lemma init_construct (rows : list InputRow.t) : __init__ rows (construct rows).
Proof.
  exists (insertion_sort by_date by_date_dec rows). split; [|reflexivity].
  apply insertion_sort_spec, by_date_trans.
Qed.

(** Every query of the summary returns. *)
Lemma get_seasonal_summary_of (data : list Row.t) :
  get_seasonal_summary data (summary_of data).
Proof.
  unfold get_seasonal_summary, identify_peak_months, identify_peak_quarters.
  simpl. repeat split;
    try (apply insertion_sort_spec, descending_trans).
Qed.

Lemma prepared_sorted (l : list InputRow.t) :
  StronglySorted by_date l -> StronglySorted rows_by_date (_prepare_data l).
Proof.
  induction 1 as [|x l Hs IH Hx]; simpl; constructor.
  - exact IH.
  - unfold _prepare_data. apply Forall_map.
    eapply Forall_impl; [|exact Hx]. intros y Hy. exact Hy.
Qed.

(** ** Data preparation *)

(** C8, as the specification words it, fails: the constructor sorts with
    pandas' default algorithm, which promises a sorted table and nothing
    about ties.  For eighteen rows sharing one date, the table in which
    rows 1 to 15 come out reversed is in ascending date order and is a
    rearrangement of the input, but the tied rows are not in their
    original order. *)
Lemma init_not_stable_counterexample :
  __init__ tie_rows (_prepare_data tie_rows_quicksorted) /\
  StronglySorted rows_by_date (_prepare_data tie_rows_quicksorted) /\
  ~ ties_keep_order tie_rows (_prepare_data tie_rows_quicksorted).
Proof.
  assert (Hs : StronglySorted by_date tie_rows_quicksorted).
  { unfold tie_rows_quicksorted. simpl.
    repeat (constructor; [|repeat (constructor; [reflexivity|]); constructor]).
    constructor. }
  split; [|split].
  - exists tie_rows_quicksorted. split; [|reflexivity].
    split; [|exact Hs].
    unfold tie_rows, tie_rows_quicksorted. apply Permutation_map.
    apply NoDup_Permutation.
    + repeat (constructor; [simpl; intuition discriminate|]). constructor.
    + repeat (constructor; [simpl; intuition discriminate|]). constructor.
    + intros x. simpl. tauto.
  - apply prepared_sorted, Hs.
  - intros H. specialize (H (mkDate 2023 1 1)). discriminate H.
Qed.

(** Python's order on strings is transitive. *)
Lemma by_text_trans (a b c : string * Z) :
  Constructor.by_text a b -> Constructor.by_text b c -> Constructor.by_text a c.
Proof.
  unfold Constructor.by_text.
  generalize (fst a) (fst b) (fst c). clear a b c. intros a.
  unfold String.leb.
  induction a as [|x a IH]; intros [|y b] [|z c]; simpl; try congruence.
  unfold Ascii.compare.
  destruct (N.compare_spec (N_of_ascii x) (N_of_ascii y)) as [Exy|Lxy|Gxy];
    destruct (N.compare_spec (N_of_ascii y) (N_of_ascii z)) as [Eyz|Lyz|Gyz];
    destruct (N.compare_spec (N_of_ascii x) (N_of_ascii z)) as [Exz|Lxz|Gxz];
    try congruence; try lia.
  apply IH.
Qed.

(** On a frame whose dates are datetime values nothing is parsed: the
    constructor sorts the rows by date and adds the calendar columns. *)
Lemma init_datetime_frame (to_datetime : list string -> option (list Date))
    (rows : list InputRow.t) (data : list Row.t) :
  Constructor.__init__ to_datetime (DataFrame.Datetime rows) data <->
  __init__ rows data.
Proof.
  split.
  - intros [[out|out] [Hs Hp]]; [|destruct Hs].
    injection Hp as <-. exists out. split; [exact Hs|reflexivity].
  - intros [out [Hs ->]]. exists (DataFrame.Datetime out).
    split; [exact Hs|reflexivity].
Qed.

(** On a frame whose dates are strings the rows are sorted as strings and
    parsed afterwards, in that order. *)
Lemma init_text_frame (to_datetime : list string -> option (list Date))
    (rows : list (string * Z)) (data : list Row.t) :
  Constructor.__init__ to_datetime (DataFrame.Text rows) data <->
  exists sorted dates,
    sort_values Constructor.by_text rows sorted /\
    to_datetime (map fst sorted) = Some dates /\
    List.length dates = List.length sorted /\
    data = _prepare_data
             (map (fun p => InputRow.mk (fst p) (snd p))
                (combine dates (map snd sorted))).
Proof.
  unfold Constructor.__init__, Constructor._prepare_data. split.
  - intros [[out|out] [Hs Hp]]; [destruct Hs|].
    simpl in Hs, Hp. destruct (to_datetime (map fst out)) as [dates|] eqn:E;
      [|discriminate].
    destruct (Nat.eqb_spec (List.length dates) (List.length out)) as [Hl|Hl];
      [|discriminate].
    injection Hp as <-. exists out, dates. auto.
  - intros (sorted & dates & Hs & Hd & Hl & ->).
    exists (DataFrame.Text sorted). split; [exact Hs|].
    simpl. rewrite Hd. apply Nat.eqb_eq in Hl. rewrite Hl. reflexivity.
Qed.

(** C8, amended.  For a frame whose date column holds datetime values,
    construction always yields a table, and every table it may yield is
    in ascending date order and holds exactly the input rows, each with
    its calendar columns; the relative order of rows with equal dates is
    not fixed. *)
Theorem init_sorted_permutation
    (to_datetime : list string -> option (list Date))
    (rows : list InputRow.t) :
  (exists data,
     Constructor.__init__ to_datetime (DataFrame.Datetime rows) data) /\
  (forall data,
     Constructor.__init__ to_datetime (DataFrame.Datetime rows) data ->
     StronglySorted rows_by_date data /\
     Permutation (_prepare_data rows) data).
Proof.
  split.
  - exists (construct rows). apply init_datetime_frame, init_construct.
  - intros data Hinit. apply init_datetime_frame in Hinit.
    destruct Hinit as [sorted [[Hperm Hsorted] ->]]. split.
    + now apply prepared_sorted.
    + unfold _prepare_data. now apply Permutation_map.
Qed.

(** ** Groups *)

Lemma insert_key_in (k x : Z) (ks : list Z) :
  In x (insert_key k ks) <-> x = k \/ In x ks.
Proof.
  induction ks as [|k' ks IH]; simpl.
  - intuition.
  - destruct (Z.ltb_spec k k'); [simpl; intuition|].
    destruct (Z.eqb_spec k k') as [->|]; simpl; intuition.
Qed.

Lemma insert_key_sorted (k : Z) (ks : list Z) :
  StronglySorted Z.lt ks -> StronglySorted Z.lt (insert_key k ks).
Proof.
  induction 1 as [|k' ks Hs IH Hk']; simpl.
  - repeat constructor.
  - destruct (Z.ltb_spec k k').
    + constructor; [now constructor|].
      constructor; [assumption|].
      eapply Forall_impl; [|exact Hk']. intros; lia.
    + destruct (Z.eqb_spec k k'); [now constructor|].
      constructor; [exact IH|].
      apply Forall_forall. intros x Hx. apply insert_key_in in Hx.
      destruct Hx as [->|Hx]; [lia|].
      rewrite Forall_forall in Hk'. now apply Hk'.
Qed.

Lemma group_keys_in (ks : list Z) (x : Z) : In x (group_keys ks) <-> In x ks.
Proof.
  induction ks as [|k ks IH]; simpl; [tauto|].
  rewrite insert_key_in, IH. intuition.
Qed.

Lemma group_keys_sorted (ks : list Z) : StronglySorted Z.lt (group_keys ks).
Proof.
  induction ks as [|k ks IH]; simpl; [constructor|].
  now apply insert_key_sorted.
Qed.

(** Two strictly ascending lists with the same elements are equal. *)
Lemma sorted_lists_equal (l1 l2 : list Z) :
  StronglySorted Z.lt l1 -> StronglySorted Z.lt l2 ->
  (forall x, In x l1 <-> In x l2) -> l1 = l2.
Proof.
  intros H1. revert l2.
  induction H1 as [|a l1 Hs1 IH Ha]; intros l2 H2 Hext.
  - destruct l2 as [|b l2]; [reflexivity|].
    exfalso. apply (Hext b). now left.
  - destruct H2 as [|b l2 Hs2 Hb].
    + exfalso. apply (Hext a). now left.
    + rewrite Forall_forall in Ha, Hb.
      assert (a = b).
      { destruct (proj1 (Hext a) (or_introl eq_refl)) as [->|Hin];
          [reflexivity|].
        destruct (proj2 (Hext b) (or_introl eq_refl)) as [->|Hin'];
          [reflexivity|].
        specialize (Ha _ Hin'). specialize (Hb _ Hin). lia. }
      subst b. f_equal. apply IH; [exact Hs2|].
      intros x. split; intros Hx.
      * destruct (proj1 (Hext x) (or_intror Hx)) as [->|]; [|assumption].
        specialize (Ha _ Hx). lia.
      * destruct (proj2 (Hext x) (or_intror Hx)) as [->|]; [|assumption].
        specialize (Hb _ Hx). lia.
Qed.

Section GroupbyFacts.

Context {A : Type} (key val : A -> Z).

Lemma groupby_mean_keys (df : list A) :
  map fst (groupby_mean key val df) = group_keys (map key df).
Proof.
  unfold groupby_mean. rewrite map_map. simpl. apply map_id.
Qed.

(** One group per key value present in the table. *)
Lemma groupby_mean_key_in (df : list A) (k : Z) :
  In k (map fst (groupby_mean key val df)) <->
  exists r, In r df /\ key r = k.
Proof.
  rewrite groupby_mean_keys, group_keys_in, in_map_iff.
  split; intros [r [H1 H2]]; exists r; auto.
Qed.

Lemma groupby_mean_value (df : list A) (k : Z) (v : R) :
  In (k, v) (groupby_mean key val df) ->
  group key k df <> [] /\
  v = (IZR (sum_int (map val (group key k df)))
       / INR (List.length (group key k df)))%R.
Proof.
  intros Hin.
  assert (Hk : In k (map fst (groupby_mean key val df)))
    by (apply in_map_iff; exists (k, v); auto).
  apply groupby_mean_key_in in Hk. destruct Hk as [r [Hr Hkr]].
  split.
  - intros E. assert (Hg : In r (group key k df)).
    { unfold group. apply filter_In. split; [exact Hr|]. now apply Z.eqb_eq. }
    rewrite E in Hg. destruct Hg.
  - unfold groupby_mean in Hin. apply in_map_iff in Hin.
    destruct Hin as [k' [E _]]. inversion E; subst.
    now rewrite length_map.
Qed.

End GroupbyFacts.

(** C10, as the specification words it, fails once the counts are large:
    the total is an [int64] sum and wraps around, the average is a
    [float64] mean and does not.  Two months of 3 * 2^61 each give two
    bins with an average of 3 * 2^61, but a total of -2^62: the two sides
    of the relation are 2^64 apart. *)
Lemma average_times_bins_overflow_counterexample :
  __init__ huge_rows (_prepare_data huge_rows) /\
  get_seasonal_summary (_prepare_data huge_rows)
    (summary_of (_prepare_data huge_rows)) /\
  monthly_sum (_prepare_data huge_rows)
    = [(24276, 3 * 2 ^ 61); (24277, 3 * 2 ^ 61)] /\
  total_enrolments (summary_of (_prepare_data huge_rows)) = - 2 ^ 62 /\
  average_monthly_enrolments (summary_of (_prepare_data huge_rows))
    = Fnum (IZR (3 * 2 ^ 61)) /\
  (IZR (3 * 2 ^ 61) * INR (List.length (monthly_sum (_prepare_data huge_rows)))
   - IZR (total_enrolments (summary_of (_prepare_data huge_rows)))
   = IZR (2 ^ 64))%R /\
  ~ (exists avg : R,
       average_monthly_enrolments (summary_of (_prepare_data huge_rows))
         = Fnum avg /\
       (avg * INR (List.length (monthly_sum (_prepare_data huge_rows)))
        = IZR (total_enrolments (summary_of (_prepare_data huge_rows))))%R).
Proof.
  assert (Ht : total_enrolments (summary_of (_prepare_data huge_rows))
               = - 2 ^ 62) by reflexivity.
  assert (Ha : average_monthly_enrolments (summary_of (_prepare_data huge_rows))
               = Fnum (IZR (3 * 2 ^ 61))).
  { unfold summary_of, average_monthly_enrolments.
    rewrite monthly_sum_huge_rows. unfold series_mean.
    cbn [map snd List.length sum_float fold_right]. f_equal.
    change (INR 2) with (1 + 1)%R. field. }
  assert (Hgap : (IZR (3 * 2 ^ 61)
                  * INR (List.length (monthly_sum (_prepare_data huge_rows)))
                  - IZR (- 2 ^ 62) = IZR (2 ^ 64))%R).
  { rewrite monthly_sum_huge_rows.
    change (INR (List.length [(24276, 3 * 2 ^ 61); (24277, 3 * 2 ^ 61)]))
      with (IZR 1 + IZR 1)%R.
    rewrite <- plus_IZR, <- mult_IZR, <- minus_IZR. reflexivity. }
  split; [|split; [|split; [|split; [|split; [|split]]]]].
  - apply init_of_sorted. unfold huge_rows. repeat constructor.
  - apply get_seasonal_summary_of.
  - exact monthly_sum_huge_rows.
  - exact Ht.
  - exact Ha.
  - rewrite Ht. exact Hgap.
  - intros [avg [E Hrel]]. rewrite Ha in E.
    assert (Eavg : avg = IZR (3 * 2 ^ 61)) by congruence.
    rewrite Eavg, Ht in Hrel. rewrite Hrel, Rminus_diag in Hgap.
    apply eq_IZR in Hgap. discriminate Hgap.
Qed.

Lemma average_times_bins_is_total_witness :
  get_seasonal_summary (_prepare_data gap_rows)
    (summary_of (_prepare_data gap_rows)) /\
  monthly_sum (_prepare_data gap_rows) <> [] /\
  (forall m, fits_int64
     (sum_int (map Row.enrolments
                 (group row_month m (_prepare_data gap_rows))))) /\
  fits_int64 (sum_int (map Row.enrolments (_prepare_data gap_rows))) /\
  exists avg : R,
    average_monthly_enrolments (summary_of (_prepare_data gap_rows)) = Fnum avg /\
    (avg * INR (List.length (monthly_sum (_prepare_data gap_rows)))
     = IZR (total_enrolments (summary_of (_prepare_data gap_rows))))%R.
Proof.
  assert (H1 : get_seasonal_summary (_prepare_data gap_rows)
                 (summary_of (_prepare_data gap_rows)))
    by apply get_seasonal_summary_of.
  assert (H2 : monthly_sum (_prepare_data gap_rows) <> [])
    by (rewrite monthly_sum_gap_rows; discriminate).
  assert (Hpos : forall r, In r (_prepare_data gap_rows) ->
                   0 <= Row.enrolments r).
  { intros r [<-|[<-|[]]]; simpl; lia. }
  assert (Hlt : sum_int (map Row.enrolments (_prepare_data gap_rows)) < 2 ^ 63)
    by (vm_compute; reflexivity).
  destruct (nonneg_counts_fit _ Hpos Hlt) as [H3 H4].
  split; [exact H1|]. split; [exact H2|]. split; [exact H3|].
  split; [exact H4|].
  exact (average_times_bins_is_total _ _ H1 H2 H3 H4).
Defined.

(** ** Peak months and quarters *)

Lemma init_rows_in (rows : list InputRow.t) (data : list Row.t) :
  __init__ rows data ->
  forall r, In r data -> exists i, In i rows /\ r = prepare_row i.
Proof.
  intros [sorted [[Hperm _] ->]] r Hr.
  unfold _prepare_data in Hr. apply in_map_iff in Hr.
  destruct Hr as [i [<- Hi]]. exists i. split; [|reflexivity].
  eapply Permutation_in; [apply Permutation_sym, Hperm|exact Hi].
Qed.

Lemma valid_date_month (d : Date) :
  valid_date d = true -> 1 <= Calendar.month d <= 12.
Proof.
  unfold valid_date. rewrite !Bool.andb_true_iff, !Z.leb_le. lia.
Qed.

Lemma valid_date_quarter (d : Date) :
  valid_date d = true -> 1 <= quarter_of d <= 4.
Proof.
  intros H. apply valid_date_month in H. unfold quarter_of.
  assert (0 <= (Calendar.month d - 1) / 3 < 4); [|lia].
  split; [apply Z.div_pos; lia|].
  apply Z.div_lt_upper_bound; lia.
Qed.

(** A sorted mean table: what both peak queries return. *)
Lemma peak_table_facts {A : Type} (key val : A -> Z) (df : list A)
    (out : list (Z * R)) (lo : Z) (n : nat) :
  sort_values descending (groupby_mean key val df) out ->
  StronglySorted descending out /\
  NoDup (map fst out) /\
  (forall k, In k (map fst out) <-> exists r, In r df /\ key r = k) /\
  (forall k v, In (k, v) out ->
     v = (IZR (sum_int (map val (group key k df)))
          / INR (List.length (group key k df)))%R) /\
  ((forall r, In r df -> lo <= key r < lo + Z.of_nat n) ->
   (forall k, lo <= k < lo + Z.of_nat n -> exists r, In r df /\ key r = k) ->
   List.length out = n /\ Permutation (zrange lo n) (map fst out)).
Proof.
  intros [Hperm Hsorted].
  assert (Hkeys : Permutation (group_keys (map key df)) (map fst out)).
  { rewrite <- (groupby_mean_keys key val df). now apply Permutation_map. }
  split; [exact Hsorted|]. split; [|split; [|split]].
  - eapply Permutation_NoDup; [exact Hkeys|].
    apply StronglySorted_lt_NoDup, group_keys_sorted.
  - intros k. rewrite <- (groupby_mean_key_in key val df k). split; intros H.
    + eapply Permutation_in; [|exact H].
      apply Permutation_sym. now apply Permutation_map.
    + eapply Permutation_in; [|exact H]. now apply Permutation_map.
  - intros k v Hin. apply (groupby_mean_value key val df).
    eapply Permutation_in; [apply Permutation_sym, Hperm|exact Hin].
  - intros Hrange Hall.
    assert (E : group_keys (map key df) = zrange lo n).
    { apply sorted_lists_equal.
      - apply group_keys_sorted.
      - apply zrange_sorted.
      - intros x. rewrite group_keys_in, in_zrange, in_map_iff. split.
        + intros [r [<- Hr]]. now apply Hrange.
        + intros Hx. destruct (Hall x Hx) as [r [Hr <-]]. eauto. }
    rewrite E in Hkeys. split; [|exact Hkeys].
    rewrite <- (length_map fst out), <- (Permutation_length Hkeys).
    apply zrange_length.
Qed.

Lemma groupby_mean_single_row :
  groupby_mean Row.month Row.enrolments (_prepare_data single_row)
  = [(1, (IZR 100 / INR 1)%R)] /\
  groupby_mean Row.quarter Row.enrolments (_prepare_data single_row)
  = [(1, (IZR 100 / INR 1)%R)].
Proof. split; reflexivity. Qed.

(** C5, as the specification words it, fails: a table with a single row
    is not empty, and both peak queries return one entry for it, not 12
    and not 4. *)
Lemma peak_months_single_row_counterexample :
  single_row <> [] /\
  __init__ single_row (_prepare_data single_row) /\
  (exists out, identify_peak_months (_prepare_data single_row) out) /\
  (forall out, identify_peak_months (_prepare_data single_row) out ->
     List.length out = 1%nat) /\
  (forall out, identify_peak_quarters (_prepare_data single_row) out ->
     List.length out = 1%nat).
Proof.
  destruct groupby_mean_single_row as [Em Eq].
  split; [discriminate|]. split; [|split; [|split]].
  - apply init_of_sorted. repeat constructor.
  - exists [(1, (IZR 100 / INR 1)%R)]. unfold identify_peak_months.
    rewrite Em. split; [apply Permutation_refl|repeat constructor].
  - intros out [Hperm _]. rewrite Em in Hperm.
    now rewrite <- (Permutation_length Hperm).
  - intros out [Hperm _]. rewrite Eq in Hperm.
    now rewrite <- (Permutation_length Hperm).
Qed.

(** C5, amended.  For every table of valid dates, [identify_peak_months]
    returns one entry per month number that occurs in the table: the keys
    are distinct and lie in 1..12, each value is the mean count of the
    rows of that month, and the entries are in descending order of value.
    When every month number 1..12 occurs, there are exactly 12 entries
    whose keys cover 1..12 once each.  Likewise [identify_peak_quarters]
    with quarters 1..4 and 4 entries when every quarter occurs. *)
Theorem peak_months_and_quarters (rows : list InputRow.t) (data : list Row.t) :
  Forall (fun r => valid_date (InputRow.date r) = true) rows ->
  __init__ rows data ->
  (forall out, identify_peak_months data out ->
     StronglySorted descending out /\
     NoDup (map fst out) /\
     (forall k, In k (map fst out) <->
        exists r, In r data /\ Row.month r = k) /\
     (forall k v, In (k, v) out ->
        1 <= k <= 12 /\
        v = (IZR (sum_int (map Row.enrolments (group Row.month k data)))
             / INR (List.length (group Row.month k data)))%R) /\
     ((forall k, 1 <= k <= 12 -> exists r, In r data /\ Row.month r = k) ->
      List.length out = 12%nat /\
      Permutation [1; 2; 3; 4; 5; 6; 7; 8; 9; 10; 11; 12] (map fst out))) /\
  (forall out, identify_peak_quarters data out ->
     StronglySorted descending out /\
     NoDup (map fst out) /\
     (forall k, In k (map fst out) <->
        exists r, In r data /\ Row.quarter r = k) /\
     (forall k v, In (k, v) out ->
        1 <= k <= 4 /\
        v = (IZR (sum_int (map Row.enrolments (group Row.quarter k data)))
             / INR (List.length (group Row.quarter k data)))%R) /\
     ((forall k, 1 <= k <= 4 -> exists r, In r data /\ Row.quarter r = k) ->
      List.length out = 4%nat /\
      Permutation [1; 2; 3; 4] (map fst out))).
Proof.
  intros Hvalid Hinit.
  assert (Hm : forall r, In r data -> 1 <= Row.month r < 1 + Z.of_nat 12).
  { intros r Hr. destruct (init_rows_in _ _ Hinit r Hr) as [i [Hi ->]].
    rewrite Forall_forall in Hvalid.
    pose proof (valid_date_month _ (Hvalid i Hi)). simpl. lia. }
  assert (Hq : forall r, In r data -> 1 <= Row.quarter r < 1 + Z.of_nat 4).
  { intros r Hr. destruct (init_rows_in _ _ Hinit r Hr) as [i [Hi ->]].
    rewrite Forall_forall in Hvalid.
    pose proof (valid_date_quarter _ (Hvalid i Hi)). simpl. lia. }
  split; intros out Hout.
  - destruct (peak_table_facts Row.month Row.enrolments data out 1 12 Hout)
      as (H1 & H2 & H3 & H4 & H5).
    split; [exact H1|]. split; [exact H2|]. split; [exact H3|]. split.
    + intros k v Hin. split; [|now apply H4].
      assert (Hk : In k (map fst out))
        by (apply in_map_iff; exists (k, v); auto).
      apply H3 in Hk. destruct Hk as [r [Hr <-]]. specialize (Hm r Hr). lia.
    + intros Hall. apply H5; [exact Hm|]. intros k Hk. apply Hall. lia.
  - destruct (peak_table_facts Row.quarter Row.enrolments data out 1 4 Hout)
      as (H1 & H2 & H3 & H4 & H5).
    split; [exact H1|]. split; [exact H2|]. split; [exact H3|]. split.
    + intros k v Hin. split; [|now apply H4].
      assert (Hk : In k (map fst out))
        by (apply in_map_iff; exists (k, v); auto).
      apply H3 in Hk. destruct Hk as [r [Hr <-]]. specialize (Hq r Hr). lia.
    + intros Hall. apply H5; [exact Hq|]. intros k Hk. apply Hall. lia.
Qed.

Lemma peak_months_and_quarters_witness :
  Forall (fun r => valid_date (InputRow.date r) = true) year_rows /\
  __init__ year_rows (_prepare_data year_rows) /\
  (forall out, identify_peak_months (_prepare_data year_rows) out ->
     List.length out = 12%nat /\
     Permutation [1; 2; 3; 4; 5; 6; 7; 8; 9; 10; 11; 12] (map fst out)) /\
  (forall out, identify_peak_quarters (_prepare_data year_rows) out ->
     List.length out = 4%nat /\ Permutation [1; 2; 3; 4] (map fst out)).
Proof.
  assert (Hv : Forall (fun r => valid_date (InputRow.date r) = true) year_rows)
    by (repeat constructor).
  assert (Hi : __init__ year_rows (_prepare_data year_rows)).
  { apply init_of_sorted. unfold year_rows. simpl.
    repeat (constructor; [|repeat (constructor; [reflexivity|]); constructor]).
    constructor. }
  destruct (peak_months_and_quarters year_rows (_prepare_data year_rows) Hv Hi)
    as [Hmonths Hquarters].
  split; [exact Hv|]. split; [exact Hi|]. split.
  - intros out Hout. apply (Hmonths out Hout).
    intros k Hk.
    assert (Hcases : k = 1 \/ k = 2 \/ k = 3 \/ k = 4 \/ k = 5 \/ k = 6 \/
                     k = 7 \/ k = 8 \/ k = 9 \/ k = 10 \/ k = 11 \/ k = 12)
      by lia.
    exists (prepare_row (InputRow.mk (mkDate 2023 k 15) (10 * k))).
    split; [|reflexivity].
    repeat (destruct Hcases as [->|Hcases]; [simpl; tauto|]).
    subst k. simpl. tauto.
  - intros out Hout. apply (Hquarters out Hout).
    intros k Hk.
    assert (Hcases : k = 1 \/ k = 2 \/ k = 3 \/ k = 4) by lia.
    exists (prepare_row
              (InputRow.mk (mkDate 2023 (3 * k - 2) 15) (10 * (3 * k - 2)))).
    repeat (destruct Hcases as [->|Hcases];
            [split; [simpl; tauto|reflexivity]|]).
    subst k. split; [simpl; tauto|reflexivity].
Defined.

(** ** Floating-point scalars *)

Lemma Rltb_true (x y : R) : Rltb x y = true <-> (x < y)%R.
Proof. unfold Rltb. destruct (Rlt_dec x y); intuition discriminate. Qed.

Lemma Rltb_false (x y : R) : Rltb x y = false <-> (y <= x)%R.
Proof.
  unfold Rltb. destruct (Rlt_dec x y); split; intros; try discriminate;
    try reflexivity; lra.
Qed.

Lemma Reqb_true (x y : R) : Reqb x y = true <-> x = y.
Proof. unfold Reqb. destruct (Req_dec_T x y); intuition discriminate. Qed.

Lemma Reqb_false (x y : R) : Reqb x y = false <-> x <> y.
Proof.
  unfold Reqb. destruct (Req_dec_T x y); split; intros; try discriminate;
    try reflexivity; congruence.
Qed.

Lemma np_gt_nan (b : float64) : np_gt Fnan b = false.
Proof. now destruct b. Qed.

Lemma np_div_nan_r (a : float64) : np_div a Fnan = Fnan.
Proof. now destruct a. Qed.

Lemma np_div_zero_zero : np_div (Fnum 0) (Fnum 0) = Fnan.
Proof.
  simpl. now rewrite (proj2 (Reqb_true 0 0) eq_refl).
Qed.

Lemma py_min_nan (b : float64) : py_min Fnan b = Fnan.
Proof. unfold py_min. now destruct b. Qed.

(** ** Means and standard deviations *)

Lemma sum_float_nonneg (xs : list R) :
  (forall x, In x xs -> (0 <= x)%R) -> (0 <= sum_float xs)%R.
Proof.
  induction xs as [|x xs IH]; simpl; intros H; [lra|].
  pose proof (H x (or_introl eq_refl)).
  assert (0 <= sum_float xs)%R by (apply IH; intros; apply H; now right).
  lra.
Qed.

Lemma sum_float_zero (xs : list R) :
  (forall x, In x xs -> (0 <= x)%R) -> sum_float xs = 0%R ->
  forall x, In x xs -> x = 0%R.
Proof.
  induction xs as [|y xs IH]; simpl; intros Hpos Hsum x Hx; [destruct Hx|].
  pose proof (Hpos y (or_introl eq_refl)).
  assert (0 <= sum_float xs)%R
    by (apply sum_float_nonneg; intros; apply Hpos; now right).
  destruct Hx as [<-|Hx]; [lra|].
  apply IH; auto. lra.
Qed.

Lemma squares_nonneg (a : R) (xs : list R) :
  forall s, In s (map (fun x => (a - x) ^ 2)%R xs) -> (0 <= s)%R.
Proof.
  intros s Hs. apply in_map_iff in Hs. destruct Hs as [x [<- _]].
  apply pow2_ge_0.
Qed.

Lemma series_var_short (xs : list R) :
  (List.length xs <= 1)%nat -> series_var xs = Fnan.
Proof.
  intros H. unfold series_var.
  now rewrite (proj2 (Nat.leb_le _ _) H).
Qed.

Lemma series_var_long (xs : list R) :
  (2 <= List.length xs)%nat ->
  series_var xs =
    Fnum (sum_float
            (map (fun x => (sum_float xs / INR (List.length xs) - x) ^ 2)%R xs)
          / (INR (List.length xs) - 1)) /\
  (0 <= sum_float
          (map (fun x => (sum_float xs / INR (List.length xs) - x) ^ 2)%R xs)
        / (INR (List.length xs) - 1))%R.
Proof.
  intros H. unfold series_var.
  destruct (Nat.leb_spec (List.length xs) 1); [lia|]. split; [reflexivity|].
  assert (1 < INR (List.length xs))%R.
  { change 1%R with (INR 1). apply lt_INR. lia. }
  apply Rmult_le_pos.
  - apply sum_float_nonneg, squares_nonneg.
  - apply Rlt_le, Rinv_0_lt_compat. lra.
Qed.

Lemma series_std_short (xs : list R) :
  (List.length xs <= 1)%nat -> series_std xs = Fnan.
Proof. intros H. unfold series_std. now rewrite series_var_short. Qed.

Lemma series_std_long (xs : list R) :
  (2 <= List.length xs)%nat ->
  series_std xs =
    Fnum (sqrt (sum_float
                  (map (fun x =>
                          (sum_float xs / INR (List.length xs) - x) ^ 2)%R xs)
                / (INR (List.length xs) - 1))).
Proof.
  intros H. unfold series_std.
  destruct (series_var_long xs H) as [-> Hpos]. unfold np_sqrt.
  now rewrite (proj2 (Rltb_false _ _) Hpos).
Qed.

Lemma series_mean_nonempty (xs : list R) :
  xs <> [] -> series_mean xs = Fnum (sum_float xs / INR (List.length xs)).
Proof. destruct xs; [congruence|reflexivity]. Qed.

(** A standard deviation of zero means every value is the mean. *)
Lemma series_std_zero (xs : list R) :
  series_std xs = Fnum 0 ->
  (2 <= List.length xs)%nat /\
  forall x, In x xs -> x = (sum_float xs / INR (List.length xs))%R.
Proof.
  intros H.
  destruct (Nat.leb_spec (List.length xs) 1) as [Hs|Hl].
  - rewrite series_std_short in H by assumption. discriminate.
  - split; [lia|].
    rewrite series_std_long in H by lia.
    destruct (series_var_long xs) as [_ Hpos]; [lia|].
    injection H as H. apply sqrt_eq_0 in H; [|exact Hpos].
    assert (1 < INR (List.length xs))%R.
    { change 1%R with (INR 1). apply lt_INR. lia. }
    assert (Hsum : sum_float
              (map (fun x => (sum_float xs / INR (List.length xs) - x) ^ 2)%R xs)
            = 0%R).
    { apply Rmult_integral in H. destruct H as [H|H]; [exact H|].
      exfalso. apply (Rinv_neq_0_compat (INR (List.length xs) - 1)); lra. }
    intros x Hx.
    assert (Hsq : ((sum_float xs / INR (List.length xs) - x) ^ 2 = 0)%R).
    { apply (sum_float_zero _ (squares_nonneg _ xs) Hsum).
      apply in_map_iff. exists x. auto. }
    nra.
Qed.

(** ** Anomalous periods *)

Lemma z_scores_in (monthly : list (Z * Z)) (row : (Z * Z) * float64) :
  In row (z_scores monthly) <->
  In (fst row) monthly /\
  snd row =
    np_div (np_sub (Fnum (IZR (snd (fst row))))
              (series_mean (map (fun b => IZR (snd b)) monthly)))
      (series_std (map (fun b => IZR (snd b)) monthly)).
Proof.
  unfold z_scores. rewrite in_map_iff. split.
  - intros [b [<- Hb]]. simpl. auto.
  - intros [Hb Hz]. exists (fst row). split; [|exact Hb].
    destruct row as [b z]. simpl in *. now rewrite Hz.
Qed.

Lemma z_scores_fst (monthly : list (Z * Z)) :
  map fst (z_scores monthly) = monthly.
Proof. unfold z_scores. rewrite map_map. simpl. apply map_id. Qed.

Lemma no_anomalies_when_nan (data : list Row.t) (threshold : float64) :
  (forall row, In row (z_scores (monthly_sum data)) -> snd row = Fnan) ->
  detect_anomalous_periods data threshold = [].
Proof.
  intros H. unfold detect_anomalous_periods.
  induction (z_scores (monthly_sum data)) as [|row rows IH]; [reflexivity|].
  simpl. rewrite (H row (or_introl eq_refl)). simpl.
  rewrite np_gt_nan. apply IH. intros r Hr. apply H. now right.
Qed.

(** With a standard deviation of zero every z-score is 0 / 0. *)
Lemma z_scores_flat (monthly : list (Z * Z)) :
  series_std (map (fun b => IZR (snd b)) monthly) = Fnum 0 ->
  forall row, In row (z_scores monthly) -> snd row = Fnan.
Proof.
  intros Hstd row Hrow. apply z_scores_in in Hrow. destruct Hrow as [Hb ->].
  destruct (series_std_zero _ Hstd) as [Hlen Hall].
  rewrite Hstd, series_mean_nonempty.
  - rewrite <- (Hall (IZR (snd (fst row)))).
    + simpl. rewrite Rminus_diag. apply np_div_zero_zero.
    + apply in_map_iff. eauto.
  - destruct (map (fun b => IZR (snd b)) monthly); [simpl in Hlen; lia|].
    discriminate.
Qed.

Lemma z_scores_undefined (monthly : list (Z * Z)) :
  (List.length monthly < 2)%nat ->
  forall row, In row (z_scores monthly) -> snd row = Fnan.
Proof.
  intros Hlen row Hrow. apply z_scores_in in Hrow. destruct Hrow as [_ ->].
  rewrite series_std_short by (rewrite length_map; lia).
  apply np_div_nan_r.
Qed.

Lemma series_std_flat_rows :
  series_std (monthly_totals (_prepare_data flat_rows)) = Fnum 0.
Proof.
  change (monthly_totals (_prepare_data flat_rows)) with [IZR 10; IZR 10].
  rewrite series_std_long by (simpl; lia).
  f_equal. rewrite <- sqrt_0. f_equal. simpl. field.
Qed.

(** C4. [detect_anomalous_periods] is a total function of NumPy
    arithmetic, whose division does not raise.  On an empty table it
    returns the empty list; with fewer than two monthly bins the standard
    deviation is NaN and it returns the empty list; with two or more bins
    and a standard deviation of exactly zero every z-score is NaN and it
    returns the empty list. *)
Theorem detect_anomalous_periods_degenerate
    (data : list Row.t) (threshold : float64) :
  detect_anomalous_periods [] threshold = [] /\
  ((List.length (monthly_sum data) < 2)%nat ->
   series_std (monthly_totals data) = Fnan /\
   detect_anomalous_periods data threshold = []) /\
  ((2 <= List.length (monthly_sum data))%nat ->
   series_std (monthly_totals data) = Fnum 0 ->
   detect_anomalous_periods data threshold = []).
Proof.
  split; [reflexivity|]. split.
  - intros Hlen. split.
    + apply series_std_short. unfold monthly_totals.
      rewrite length_map. lia.
    + apply no_anomalies_when_nan. now apply z_scores_undefined.
  - intros _ Hstd. apply no_anomalies_when_nan. now apply z_scores_flat.
Qed.

Lemma detect_anomalous_periods_degenerate_witness :
  (List.length (monthly_sum (_prepare_data single_row)) < 2)%nat /\
  detect_anomalous_periods (_prepare_data single_row) (Fnum 2) = [] /\
  (2 <= List.length (monthly_sum (_prepare_data flat_rows)))%nat /\
  series_std (monthly_totals (_prepare_data flat_rows)) = Fnum 0 /\
  detect_anomalous_periods (_prepare_data flat_rows) (Fnum 2) = [].
Proof.
  assert (H1 : (List.length (monthly_sum (_prepare_data single_row)) < 2)%nat)
    by (vm_compute; lia).
  assert (H2 : (2 <= List.length (monthly_sum (_prepare_data flat_rows)))%nat)
    by (vm_compute; lia).
  split; [exact H1|]. split.
  - exact (proj2 (proj1 (proj2 (detect_anomalous_periods_degenerate
             (_prepare_data single_row) (Fnum 2))) H1)).
  - split; [exact H2|]. split; [exact series_std_flat_rows|].
    exact (proj2 (proj2 (detect_anomalous_periods_degenerate
             (_prepare_data flat_rows) (Fnum 2))) H2 series_std_flat_rows).
Defined.

Lemma z_scores_chronological (data : list Row.t) :
  StronglySorted earlier_month (z_scores (monthly_sum data)).
Proof.
  apply (StronglySorted_map_iff Z.lt (fun row => fst (fst row))).
  rewrite <- (map_map fst fst), z_scores_fst.
  apply grouper_keys_sorted.
Qed.

(** With two bins or more the mean and standard deviation of pandas are
    the ones of the specification. *)
Lemma series_mean_std_spec (xs : list R) :
  (2 <= List.length xs)%nat ->
  series_mean xs = Fnum (spec_mean xs) /\
  series_std xs = Fnum (spec_std xs).
Proof.
  intros Hlen. split.
  - apply series_mean_nonempty. destruct xs; [simpl in Hlen; lia|discriminate].
  - rewrite series_std_long by assumption. unfold spec_std, spec_mean.
    f_equal. f_equal. f_equal.
    + f_equal. apply map_ext. intros x. ring.
    + rewrite minus_INR by lia. reflexivity.
Qed.


(** ** Seasonality strength *)

Lemma sum_int_nonneg (xs : list Z) :
  (forall x, In x xs -> 0 <= x) -> 0 <= sum_int xs.
Proof.
  induction xs as [|x xs IH]; simpl; intros H; [lia|].
  pose proof (H x (or_introl eq_refl)).
  assert (0 <= sum_int xs) by (apply IH; intros; apply H; now right). lia.
Qed.

Lemma sum_float_all_zero (xs : list R) :
  (forall x, In x xs -> x = 0%R) -> sum_float xs = 0%R.
Proof.
  induction xs as [|x xs IH]; simpl; intros H; [reflexivity|].
  rewrite (H x (or_introl eq_refl)), IH; [lra|].
  intros; apply H; now right.
Qed.

(** Non-negative counts give non-negative monthly means. *)
Lemma month_means_nonneg (data : list Row.t) :
  (forall r, In r data -> 0 <= Row.enrolments r) ->
  forall v, In v (month_means data) -> (0 <= v)%R.
Proof.
  intros Hpos v Hv. unfold month_means in Hv. apply in_map_iff in Hv.
  destruct Hv as [[k v'] [<- Hin]]. simpl.
  apply groupby_mean_value in Hin. destruct Hin as [Hne ->].
  apply Rmult_le_pos.
  - apply IZR_le, sum_int_nonneg. intros x Hx. apply in_map_iff in Hx.
    destruct Hx as [r [<- Hr]]. apply Hpos.
    unfold group in Hr. now apply filter_In in Hr.
  - apply Rlt_le, Rinv_0_lt_compat, lt_0_INR.
    destruct (group Row.month k data); [congruence|simpl; lia].
Qed.

(** The unit interval, where it holds: with non-negative counts, at least
    two month numbers present and a non-zero mean of the monthly means,
    the result is the coefficient of variation, cut off at 1. *)
Lemma seasonality_strength_clamped (data : list Row.t) :
  (forall r, In r data -> 0 <= Row.enrolments r) ->
  (2 <= List.length (month_means data))%nat ->
  spec_mean (month_means data) <> 0%R ->
  (0 <= spec_std (month_means data) / spec_mean (month_means data))%R /\
  calculate_seasonality_strength data =
    Fnum (Rmin (spec_std (month_means data) / spec_mean (month_means data)) 1) /\
  (0 <= Rmin (spec_std (month_means data) / spec_mean (month_means data)) 1
   <= 1)%R.
Proof.
  intros Hpos Hlen Hmean.
  destruct (series_mean_std_spec _ Hlen) as [Hm Hs].
  assert (Hmpos : (0 < spec_mean (month_means data))%R).
  { assert (0 <= spec_mean (month_means data))%R; [|lra].
    unfold spec_mean. apply Rmult_le_pos.
    - apply sum_float_nonneg, month_means_nonneg, Hpos.
    - apply Rlt_le, Rinv_0_lt_compat, lt_0_INR. lia. }
  assert (Hcv : (0 <= spec_std (month_means data)
                      / spec_mean (month_means data))%R).
  { apply Rmult_le_pos; [apply sqrt_pos|].
    apply Rlt_le, Rinv_0_lt_compat, Hmpos. }
  split; [exact Hcv|]. split.
  - unfold calculate_seasonality_strength. fold (month_means data).
    rewrite Hm, Hs. simpl.
    rewrite (proj2 (Reqb_false _ _) Hmean).
    unfold py_min, np_lt, Rmin, Rltb.
    destruct (Rlt_dec 1 _) as [H|H];
      destruct (Rle_dec _ 1) as [H'|H']; try reflexivity; lra.
  - unfold Rmin. destruct (Rle_dec _ 1); lra.
Qed.

Lemma month_means_single_row :
  month_means (_prepare_data single_row) = [(IZR 100 / INR 1)%R].
Proof. reflexivity. Qed.

(** C6 at a table whose rows all fall in one month: the mean of the
    monthly means is 100, not zero, the sample standard deviation of a
    single mean is NaN, and the result is NaN, not a number of the unit
    interval. *)
Theorem seasonality_strength_single_month :
  __init__ single_row (_prepare_data single_row) /\
  series_mean (month_means (_prepare_data single_row)) = Fnum 100 /\
  series_std (month_means (_prepare_data single_row)) = Fnan /\
  calculate_seasonality_strength (_prepare_data single_row) = Fnan.
Proof.
  split; [|split; [|split]].
  - apply init_of_sorted. repeat constructor.
  - rewrite month_means_single_row. unfold series_mean. simpl.
    f_equal. field.
  - rewrite month_means_single_row. apply series_std_short. simpl. lia.
  - unfold calculate_seasonality_strength. fold (month_means (_prepare_data single_row)).
    rewrite month_means_single_row.
    rewrite series_std_short by (simpl; lia). reflexivity.
Qed.

(** ** Zero and undefined means *)

Lemma series_mean_nan (xs : list R) : series_mean xs = Fnan -> xs = [].
Proof. destruct xs; [reflexivity|discriminate]. Qed.

Lemma series_std_all_zero (xs : list R) :
  (2 <= List.length xs)%nat -> (forall x, In x xs -> x = 0%R) ->
  series_std xs = Fnum 0.
Proof.
  intros Hlen Hall. rewrite series_std_long by assumption.
  f_equal. rewrite <- sqrt_0. f_equal.
  rewrite (sum_float_all_zero xs Hall).
  rewrite sum_float_all_zero; [unfold Rdiv; ring|].
  intros s Hs. apply in_map_iff in Hs. destruct Hs as [x [<- Hx]].
  rewrite (Hall x Hx). unfold Rdiv. ring.
Qed.

(** C7, as the specification words it, fails: for two months of zero
    counts the mean of the monthly means is zero and
    [calculate_seasonality_strength] returns NaN; for a table without
    rows there is no monthly bin and the summary's average monthly count
    is NaN.  Neither is an error, neither is a value other than NaN.  (The
    first also leaves the range the function documents for its score, as
    a single month does.) *)
Lemma zero_mean_returns_nan_counterexample :
  __init__ zero_rows (_prepare_data zero_rows) /\
  series_mean (month_means (_prepare_data zero_rows)) = Fnum 0 /\
  calculate_seasonality_strength (_prepare_data zero_rows) = Fnan /\
  __init__ [] [] /\
  monthly_sum [] = [] /\
  get_seasonal_summary [] (summary_of []) /\
  average_monthly_enrolments (summary_of []) = Fnan.
Proof.
  assert (Hm : month_means (_prepare_data zero_rows)
               = [(IZR 0 / INR 1)%R; (IZR 0 / INR 1)%R]) by reflexivity.
  split; [|split; [|split; [|split; [|split; [|split]]]]].
  - apply init_of_sorted. repeat constructor.
  - rewrite Hm. unfold series_mean. f_equal. simpl. field.
  - unfold calculate_seasonality_strength.
    fold (month_means (_prepare_data zero_rows)). rewrite Hm.
    rewrite series_std_all_zero.
    + unfold series_mean.
      replace (sum_float [(IZR 0 / INR 1)%R; (IZR 0 / INR 1)%R]
               / INR (List.length [(IZR 0 / INR 1)%R; (IZR 0 / INR 1)%R]))%R
        with 0%R by (simpl; field).
      now rewrite np_div_zero_zero.
    + simpl. lia.
    + intros x [<-|[<-|[]]]; simpl; field.
  - apply (init_of_sorted []). constructor.
  - reflexivity.
  - apply get_seasonal_summary_of.
  - reflexivity.
Qed.

(** There is no monthly bin exactly when the table has no rows. *)
Lemma monthly_sum_empty_iff (data : list Row.t) :
  monthly_sum data = [] <-> data = [].
Proof.
  split; [|intros ->; reflexivity].
  intros E. apply (f_equal (@List.length _)) in E.
  destruct data as [|r data]; [reflexivity|exfalso].
  assert (Hin : In (row_month r) (map fst (monthly_sum (r :: data)))).
  { apply grouper_keys_span. exists r, r.
    repeat split; try (now left); unfold row_month; lia. }
  destruct (monthly_sum (r :: data)); [destruct Hin|discriminate E].
Qed.

(** C7, amended.  The summary's average monthly count is the mean of the
    monthly totals as pandas computes it: when there is no monthly bin,
    which is when the table has no rows, a summary is still returned, and
    the average of every summary is NaN; with at least one bin the average
    is a number.  No error is raised in either case. *)
Theorem average_without_bins_is_nan (data : list Row.t) :
  (monthly_sum data = [] <-> data = []) /\
  (exists s, get_seasonal_summary data s) /\
  (forall s, get_seasonal_summary data s ->
     (monthly_sum data = [] -> average_monthly_enrolments s = Fnan) /\
     (monthly_sum data <> [] ->
      exists avg : R, average_monthly_enrolments s = Fnum avg)).
Proof.
  split; [apply monthly_sum_empty_iff|]. split.
  - exists (summary_of data). apply get_seasonal_summary_of.
  - intros s (_ & _ & _ & _ & _ & Havg). split.
    + intros Hempty. rewrite Havg, Hempty. reflexivity.
    + intros Hne. rewrite Havg. destruct (monthly_sum data) as [|b l];
        [congruence|].
      eexists. reflexivity.
Qed.

(** ** A worked table *)



(** The stable insertion sort leaves the tied rows in their input order:
    both orders are admissible results of the constructor. *)
Example construct_tie_rows :
  construct tie_rows = _prepare_data tie_rows /\
  ties_keep_order tie_rows (construct tie_rows).
Proof.
  assert (E : construct tie_rows = _prepare_data tie_rows)
    by (vm_compute; reflexivity).
  split; [exact E|]. rewrite E. intros d. reflexivity.
Qed.

(** * Further properties of the detector *)

(** ** The order of the rows does not matter to the queries *)

Lemma sum_int_perm (l l' : list Z) :
  Permutation l l' -> sum_int l = sum_int l'.
Proof. induction 1; simpl; lia. Qed.

Lemma filter_perm {A : Type} (f : A -> bool) (l l' : list A) :
  Permutation l l' -> Permutation (filter f l) (filter f l').
Proof.
  induction 1 as [|x l l' _ IH|x y l|l l' l'' _ IH1 _ IH2]; simpl.
  - constructor.
  - destruct (f x); [now constructor|exact IH].
  - destruct (f x), (f y); try apply Permutation_refl. apply perm_swap.
  - now apply perm_trans with (filter f l').
Qed.

Lemma fold_min_perm (i j : Z) (rest rest' : list Z) :
  Permutation (i :: rest) (j :: rest') ->
  fold_right Z.min i rest = fold_right Z.min j rest'.
Proof.
  intros Hp.
  pose proof (fold_min_attained i rest) as H1.
  pose proof (fold_min_attained j rest') as H2.
  apply (Permutation_in _ Hp) in H1.
  apply (Permutation_in _ (Permutation_sym Hp)) in H2.
  apply (fold_min_lower j rest') in H1.
  apply (fold_min_lower i rest) in H2. lia.
Qed.

Lemma fold_max_perm (i j : Z) (rest rest' : list Z) :
  Permutation (i :: rest) (j :: rest') ->
  fold_right Z.max i rest = fold_right Z.max j rest'.
Proof.
  intros Hp.
  pose proof (fold_max_attained i rest) as H1.
  pose proof (fold_max_attained j rest') as H2.
  apply (Permutation_in _ Hp) in H1.
  apply (Permutation_in _ (Permutation_sym Hp)) in H2.
  apply (fold_max_upper j rest') in H1.
  apply (fold_max_upper i rest) in H2. lia.
Qed.

Lemma group_keys_perm (ks ks' : list Z) :
  Permutation ks ks' -> group_keys ks = group_keys ks'.
Proof.
  intros Hp. apply sorted_lists_equal; try apply group_keys_sorted.
  intros x. rewrite !group_keys_in. split; apply Permutation_in;
    [exact Hp|apply Permutation_sym, Hp].
Qed.

Section OrderIndependence.

Context {A : Type} (df df' : list A).
Hypothesis Hperm : Permutation df df'.

Lemma group_sum_perm (key val : A -> Z) (k : Z) :
  sum_int (map val (group key k df)) = sum_int (map val (group key k df')).
Proof. apply sum_int_perm, Permutation_map, filter_perm, Hperm. Qed.

Lemma group_length_perm (key : A -> Z) (k : Z) :
  List.length (group key k df) = List.length (group key k df').
Proof. apply Permutation_length, filter_perm, Hperm. Qed.

Lemma groupby_mean_perm (key val : A -> Z) :
  groupby_mean key val df = groupby_mean key val df'.
Proof.
  unfold groupby_mean.
  rewrite (group_keys_perm (map key df) (map key df'))
    by (apply Permutation_map, Hperm).
  apply map_ext. intros k. simpl.
  rewrite !length_map, (group_sum_perm key val k), (group_length_perm key k).
  reflexivity.
Qed.

Lemma grouper_month_sum_perm (date : A -> Date) (val : A -> Z) :
  grouper_month_sum date val df = grouper_month_sum date val df'.
Proof.
  unfold grouper_month_sum.
  pose proof (Permutation_map (fun r => month_index (date r)) Hperm) as Hp.
  destruct (map (fun r => month_index (date r)) df) as [|i rest];
    destruct (map (fun r => month_index (date r)) df') as [|j rest'].
  - reflexivity.
  - apply Permutation_nil in Hp. discriminate.
  - apply Permutation_sym, Permutation_nil in Hp. discriminate.
  - rewrite (fold_min_perm i j rest rest' Hp), (fold_max_perm i j rest rest' Hp).
    apply map_ext. intros m. unfold sum_int64. do 2 f_equal.
    apply (group_sum_perm (fun r => month_index (date r)) val m).
Qed.

End OrderIndependence.

Lemma init_permutation (rows : list InputRow.t) (data : list Row.t) :
  __init__ rows data -> Permutation (_prepare_data rows) data.
Proof.
  intros [sorted [[Hperm _] ->]]. unfold _prepare_data.
  now apply Permutation_map.
Qed.

Lemma init_tie_rows_quicksorted :
  __init__ tie_rows (_prepare_data tie_rows_quicksorted).
Proof.
  exists tie_rows_quicksorted. split; [|reflexivity]. split.
  - unfold tie_rows, tie_rows_quicksorted. apply Permutation_map.
    apply NoDup_Permutation.
    + repeat (constructor; [simpl; intuition discriminate|]). constructor.
    + repeat (constructor; [simpl; intuition discriminate|]). constructor.
    + intros x. simpl. tauto.
  - unfold tie_rows_quicksorted. simpl.
    repeat (constructor; [|repeat (constructor; [reflexivity|]); constructor]).
    constructor.
Qed.

Lemma queries_perm (data data' : list Row.t) :
  Permutation data data' ->
  monthly_sum data = monthly_sum data' /\
  groupby_mean Row.month Row.enrolments data
    = groupby_mean Row.month Row.enrolments data' /\
  groupby_mean Row.quarter Row.enrolments data
    = groupby_mean Row.quarter Row.enrolments data' /\
  sum_int (map Row.enrolments data) = sum_int (map Row.enrolments data').
Proof.
  intros Hp. repeat split.
  - apply grouper_month_sum_perm, Hp.
  - apply groupby_mean_perm, Hp.
  - apply groupby_mean_perm, Hp.
  - apply sum_int_perm, Permutation_map, Hp.
Qed.

(** X1. The sort of the constructor changes no answer: on every table the
    constructor may build, each query returns what it returns on the
    unsorted prepared rows.  In particular two tables built from the same
    input, whatever the order of their ties, answer every query alike. *)
Theorem queries_ignore_row_order (rows : list InputRow.t) (data : list Row.t) :
  __init__ rows data ->
  monthly_sum data = monthly_sum (_prepare_data rows) /\
  (forall out, identify_peak_months data out <->
               identify_peak_months (_prepare_data rows) out) /\
  (forall out, identify_peak_quarters data out <->
               identify_peak_quarters (_prepare_data rows) out) /\
  calculate_seasonality_strength data
    = calculate_seasonality_strength (_prepare_data rows) /\
  (forall threshold,
     detect_anomalous_periods data threshold
     = detect_anomalous_periods (_prepare_data rows) threshold) /\
  (forall period,
     detect_seasonal_pattern data period
     = detect_seasonal_pattern (_prepare_data rows) period) /\
  (forall s, get_seasonal_summary data s <->
             get_seasonal_summary (_prepare_data rows) s).
Proof.
  intros Hinit. pose proof (init_permutation rows data Hinit) as Hp.
  apply Permutation_sym in Hp.
  destruct (queries_perm data (_prepare_data rows) Hp) as (Hm & Hgm & Hgq & Ht).
  assert (Hs : calculate_seasonality_strength data
               = calculate_seasonality_strength (_prepare_data rows))
    by (unfold calculate_seasonality_strength; now rewrite Hgm).
  assert (Ha : forall threshold,
             detect_anomalous_periods data threshold
             = detect_anomalous_periods (_prepare_data rows) threshold)
    by (intros; unfold detect_anomalous_periods; now rewrite Hm).
  split; [exact Hm|]. split; [|split; [|split; [|split; [|split]]]].
  - intros out. unfold identify_peak_months. now rewrite Hgm.
  - intros out. unfold identify_peak_quarters. now rewrite Hgq.
  - exact Hs.
  - exact Ha.
  - intros period. unfold detect_seasonal_pattern. now rewrite Hm.
  - intros s. unfold get_seasonal_summary, identify_peak_months,
      identify_peak_quarters, sum_int64.
    now rewrite Hgm, Hgq, Hs, Ha, Ht, Hm.
Qed.

Lemma queries_ignore_row_order_witness :
  __init__ tie_rows (_prepare_data tie_rows_quicksorted) /\
  monthly_sum (_prepare_data tie_rows_quicksorted)
    = monthly_sum (_prepare_data tie_rows) /\
  calculate_seasonality_strength (_prepare_data tie_rows_quicksorted)
    = calculate_seasonality_strength (_prepare_data tie_rows).
Proof.
  pose proof init_tie_rows_quicksorted as H.
  pose proof (queries_ignore_row_order tie_rows
                (_prepare_data tie_rows_quicksorted) H) as Hq.
  split; [exact H|]. split; [exact (proj1 Hq)|].
  exact (proj1 (proj2 (proj2 (proj2 Hq)))).
Defined.

(** ** Distinct timestamps leave the constructor no choice *)

Lemma date_le_antisym (a b : Date) : date_le a b -> date_le b a -> a = b.
Proof.
  destruct a as [ya ma da], b as [yb mb db]. date_order. simpl.
  intros H1 H2.
  assert (ya = yb /\ ma = mb /\ da = db) as (-> & -> & ->) by lia.
  reflexivity.
Qed.

Section SortedUnique.

Context {A K : Type} (key : A -> K) (le : K -> K -> Prop).
Hypothesis le_antisym : forall a b, le a b -> le b a -> a = b.

(** Rows with pairwise distinct keys have one sorted order. *)
Lemma sorted_permutation_unique (l1 l2 : list A) :
  NoDup (map key l1) ->
  Permutation l1 l2 ->
  StronglySorted (fun a b => le (key a) (key b)) l1 ->
  StronglySorted (fun a b => le (key a) (key b)) l2 -> l1 = l2.
Proof.
  revert l2. induction l1 as [|a l1 IH]; intros l2 Hnd Hp Hs1 Hs2.
  - apply Permutation_nil in Hp. now subst.
  - destruct l2 as [|b l2];
      [apply Permutation_sym, Permutation_nil in Hp; discriminate|].
    inversion Hs1 as [|? ? Hs1' Ha]; subst.
    inversion Hs2 as [|? ? Hs2' Hb]; subst.
    inversion Hnd as [|? ? Hnotin Hnd']; subst.
    rewrite Forall_forall in Ha, Hb.
    assert (a = b).
    { pose proof (Permutation_in a Hp (or_introl eq_refl)) as Hain.
      pose proof (Permutation_in b (Permutation_sym Hp) (or_introl eq_refl))
        as Hbin.
      destruct Hain as [E|Hain]; [now symmetry|].
      destruct Hbin as [E|Hbin]; [exact E|].
      exfalso. apply Hnotin.
      rewrite (le_antisym _ _ (Ha b Hbin) (Hb a Hain)).
      now apply in_map. }
    subst b. f_equal. apply IH; auto.
    now apply Permutation_cons_inv in Hp.
Qed.

(** Whatever sorted permutation [sort_values] returns, it is the one the
    stable sort builds. *)
Lemma sort_values_unique
    (le_dec : forall a b, {le (key a) (key b)} + {le (key b) (key a)})
    (le_trans : forall a b c : A,
       le (key a) (key b) -> le (key b) (key c) -> le (key a) (key c))
    (l out : list A) :
  NoDup (map key l) ->
  (sort_values (fun a b => le (key a) (key b)) l out <->
   out = insertion_sort (fun a b => le (key a) (key b)) le_dec l).
Proof.
  intros Hnd.
  destruct (insertion_sort_spec (fun a b => le (key a) (key b)) le_dec
              le_trans l) as [Hperm' Hsorted'].
  split.
  - intros [Hperm Hsorted]. apply sorted_permutation_unique; auto.
    + eapply Permutation_NoDup; [|exact Hnd]. now apply Permutation_map.
    + apply perm_trans with l; [now apply Permutation_sym|exact Hperm'].
  - intros ->. split; assumption.
Qed.

End SortedUnique.

Lemma string_leb_antisym (a b : string) :
  (a <=? b)%string = true -> (b <=? a)%string = true -> a = b.
Proof. apply String.leb_antisym. Qed.

(** With pairwise distinct values in the date column the sort has one
    result, the stably sorted frame. *)
Lemma init_stable_sort
    (to_datetime : list string -> option (list Date))
    (df : DataFrame.t) (data : list Row.t) :
  distinct_dates df ->
  (Constructor.__init__ to_datetime df data <->
   Constructor._prepare_data to_datetime (stable_sort df) = Some data).
Proof.
  intros Hnd.
  assert (Hsorted : forall sorted,
            Constructor.sort_values_date df sorted <-> sorted = stable_sort df).
  { intros sorted. destruct df as [rows|rows], sorted as [out|out];
      simpl in *; try (split; [intros []|discriminate]).
    - rewrite (sort_values_unique InputRow.date date_le date_le_antisym
                 by_date_dec by_date_trans rows out Hnd).
      split; [intros ->; reflexivity|intros E; now injection E].
    - rewrite (sort_values_unique fst (fun a b => (a <=? b)%string = true)
                 string_leb_antisym by_text_dec by_text_trans rows out Hnd).
      split; [intros ->; reflexivity|intros E; now injection E]. }
  unfold Constructor.__init__. split.
  - intros [sorted [Hs Hp]]. apply Hsorted in Hs. now subst sorted.
  - intros Hp. exists (stable_sort df). split; [now apply Hsorted|exact Hp].
Qed.

(** X2. When the values of the date column are pairwise distinct, the
    constructor has no choice: its result, if [pd.to_datetime] lets it
    have one, is what [_prepare_data] makes of the stably sorted frame.
    For a datetime column these are the rows in ascending date order; for
    a column of strings they are the rows in the order of their date
    strings, parsed afterwards, whatever order the parsed dates are
    in. *)
Theorem init_unique_for_distinct_dates
    (to_datetime : list string -> option (list Date))
    (df : DataFrame.t) (data : list Row.t) :
  distinct_dates df ->
  (Constructor.__init__ to_datetime df data <->
   Constructor._prepare_data to_datetime (stable_sort df) = Some data) /\
  (forall rows, df = DataFrame.Datetime rows ->
     (Constructor.__init__ to_datetime df data <-> data = construct rows)) /\
  (forall rows, df = DataFrame.Text rows ->
     (Constructor.__init__ to_datetime df data <->
      exists dates,
        to_datetime
          (map fst (insertion_sort Constructor.by_text by_text_dec rows))
          = Some dates /\
        List.length dates = List.length rows /\
        data = _prepare_data
                 (map (fun p => InputRow.mk (fst p) (snd p))
                    (combine dates
                       (map snd
                          (insertion_sort Constructor.by_text by_text_dec
                             rows)))))).
Proof.
  intros Hnd. pose proof (init_stable_sort to_datetime df data Hnd) as Hinit.
  split; [exact Hinit|]. split.
  - intros rows ->. rewrite Hinit. unfold construct. simpl.
    unfold Constructor._prepare_data. simpl.
    split; [intros E; now injection E|intros ->; reflexivity].
  - intros rows ->. rewrite Hinit. unfold Constructor._prepare_data. simpl.
    set (sorted := insertion_sort Constructor.by_text by_text_dec rows).
    assert (Hlen : List.length sorted = List.length rows).
    { apply Permutation_length, Permutation_sym.
      apply (insertion_sort_spec Constructor.by_text by_text_dec
               by_text_trans rows). }
    destruct (to_datetime (map fst sorted)) as [dates|]; split.
    + destruct (Nat.eqb_spec (List.length dates) (List.length sorted))
        as [Hl|Hl]; [|discriminate].
      intros E. injection E as <-. exists dates.
      repeat split; [congruence].
    + intros (dates' & E & Hl & ->). injection E as <-.
      rewrite <- Hlen in Hl. apply Nat.eqb_eq in Hl. rewrite Hl. reflexivity.
    + discriminate.
    + intros (dates' & E & _). discriminate.
Qed.

Lemma init_unique_for_distinct_dates_witness :
  distinct_dates (DataFrame.Datetime gap_rows) /\
  (Constructor.__init__ (fun _ => None) (DataFrame.Datetime gap_rows)
     (_prepare_data gap_rows) <->
   _prepare_data gap_rows = construct gap_rows).
Proof.
  assert (H : distinct_dates (DataFrame.Datetime gap_rows)).
  { simpl. repeat (constructor; [simpl; intuition discriminate|]).
    constructor. }
  split; [exact H|].
  exact (proj1 (proj2 (init_unique_for_distinct_dates (fun _ => None)
                         (DataFrame.Datetime gap_rows)
                         (_prepare_data gap_rows) H))
           gap_rows eq_refl).
Defined.

(** Two rows dated 31 December 2023 and 2 January 2024 in the month-first
    notation: as strings, January sorts first.  Whenever [pd.to_datetime]
    reads the two strings as these dates, the table the constructor builds
    has the January row before the December row. *)
Example text_frame_in_string_order
    (to_datetime : list string -> option (list Date)) (data : list Row.t) :
  to_datetime ["01/02/2024"%string; "12/31/2023"%string]
    = Some [mkDate 2024 1 2; mkDate 2023 12 31] ->
  (Constructor.__init__ to_datetime
     (DataFrame.Text [("12/31/2023"%string, 5); ("01/02/2024"%string, 7)]) data
   <-> data = _prepare_data [InputRow.mk (mkDate 2024 1 2) 7;
                             InputRow.mk (mkDate 2023 12 31) 5]) /\
  ~ StronglySorted rows_by_date
      (_prepare_data [InputRow.mk (mkDate 2024 1 2) 7;
                      InputRow.mk (mkDate 2023 12 31) 5]).
Proof.
  intros Hparse. split.
  - assert (Hnd : distinct_dates
              (DataFrame.Text [("12/31/2023"%string, 5);
                               ("01/02/2024"%string, 7)])).
    { simpl. repeat (constructor; [simpl; intuition discriminate|]).
      constructor. }
    rewrite (init_stable_sort to_datetime _ data Hnd).
    unfold Constructor._prepare_data. simpl. rewrite Hparse. simpl.
    split; [intros E; now injection E|intros ->; reflexivity].
  - intros H. inversion H as [|? ? _ Hall]; subst.
    inversion Hall as [|? ? Hle _]; subst. discriminate Hle.
Qed.

(** ** The calendar columns *)

Ltac month_cases m :=
  let Hc := fresh "Hc" in
  assert (Hc : m = 1 \/ m = 2 \/ m = 3 \/ m = 4 \/ m = 5 \/ m = 6 \/ m = 7 \/
               m = 8 \/ m = 9 \/ m = 10 \/ m = 11 \/ m = 12) by lia;
  destruct Hc as [->|[->|[->|[->|[->|[->|[->|[->|[->|[->|[->| ->]]]]]]]]]]].

Ltac leap_cases y :=
  destruct (Z.eqb_spec (y mod 4) 0); destruct (Z.eqb_spec (y mod 100) 0);
  destruct (Z.eqb_spec (y mod 400) 0);
  cbv beta iota zeta delta [Z.leb Z.ltb Z.eqb Z.compare Pos.compare
                             Pos.compare_cont Pos.eqb andb orb negb].

(** The day of the year is the length of the months before, plus the day
    of the month. *)
Lemma day_of_year_months (d : Date) :
  1 <= Calendar.month d <= 12 ->
  Calendar.day_of_year d
  = days_before_month (Calendar.year d) (Calendar.month d) + Calendar.day d.
Proof.
  destruct d as [y m dd].
  unfold Calendar.day_of_year, days_from_civil, days_before_month, is_leap.
  cbn [Calendar.year Calendar.month Calendar.day]. intros Hm.
  month_cases m; leap_cases y; Z.div_mod_to_equations; lia.
Qed.

Lemma day_of_year_range (d : Date) :
  valid_date d = true ->
  1 <= Calendar.day_of_year d <= (if is_leap (Calendar.year d) then 366 else 365).
Proof.
  intros Hv. pose proof (valid_date_month d Hv) as Hm.
  rewrite (day_of_year_months d Hm).
  unfold valid_date in Hv. rewrite !Bool.andb_true_iff, !Z.leb_le in Hv.
  destruct Hv as [[[_ _] Hd1] Hd2]. revert Hd2.
  destruct d as [y m dd].
  cbn [Calendar.year Calendar.month Calendar.day] in *.
  unfold days_before_month, days_in_month.
  month_cases m; destruct (is_leap y);
    cbv beta iota zeta delta [Z.leb Z.ltb Z.eqb Z.compare Pos.compare
                               Pos.compare_cont Pos.eqb andb orb negb];
    lia.
Qed.

Lemma iso_weekday_range (d : Date) : 1 <= iso_weekday d <= 7.
Proof.
  unfold iso_weekday.
  pose proof (Z.mod_pos_bound (days_from_civil d + 3) 7). lia.
Qed.

Lemma iso_weeks_in_year_range (y : Z) : 52 <= iso_weeks_in_year y <= 53.
Proof. unfold iso_weeks_in_year. destruct (_ || _); lia. Qed.

Lemma iso_week_range (d : Date) :
  valid_date d = true -> 1 <= iso_week d <= 53.
Proof.
  intros Hv. pose proof (day_of_year_range d Hv) as Hdoy.
  pose proof (iso_weekday_range d) as Hwd.
  pose proof (iso_weeks_in_year_range (Calendar.year d)) as H1.
  pose proof (iso_weeks_in_year_range (Calendar.year d - 1)) as H2.
  unfold iso_week.
  assert (Hw : 0 <= (Calendar.day_of_year d - iso_weekday d + 10) / 7 < 54).
  { destruct (is_leap (Calendar.year d)); split;
      try (apply Z.div_pos; lia); apply Z.div_lt_upper_bound; lia. }
  destruct (Z.ltb_spec ((Calendar.day_of_year d - iso_weekday d + 10) / 7) 1);
    [lia|].
  destruct (Z.ltb_spec (iso_weeks_in_year (Calendar.year d))
              ((Calendar.day_of_year d - iso_weekday d + 10) / 7)); lia.
Qed.

Lemma prepare_row_columns (i : InputRow.t) :
  valid_date (InputRow.date i) = true -> calendar_columns (prepare_row i).
Proof.
  intros Hv. pose proof (valid_date_month _ Hv) as Hm.
  unfold calendar_columns, prepare_row. cbn.
  split; [exact Hm|]. split; [reflexivity|]. split; [reflexivity|].
  split; [reflexivity|]. split; [now apply valid_date_quarter|].
  split; [now apply iso_week_range|].
  split; [now apply day_of_year_months|]. now apply day_of_year_range.
Qed.

(** X3. Whatever table the constructor builds from rows with valid dates,
    it has as many rows as the input, and in every row the added columns
    are the calendar's: month in 1..12, quarter [(month - 1) / 3 + 1] in
    1..4, ISO week in 1..53, and the day of the year equal to the days of
    the preceding months plus the day of the month, between 1 and 365
    (366 in a leap year). *)
Theorem prepared_columns (rows : list InputRow.t) (data : list Row.t) :
  Forall (fun r => valid_date (InputRow.date r) = true) rows ->
  __init__ rows data ->
  List.length data = List.length rows /\
  Forall calendar_columns data.
Proof.
  intros Hvalid Hinit. split.
  - rewrite <- (Permutation_length (init_permutation _ _ Hinit)).
    unfold _prepare_data. apply length_map.
  - apply Forall_forall. intros r Hr.
    destruct (init_rows_in _ _ Hinit r Hr) as [i [Hi ->]].
    rewrite Forall_forall in Hvalid. now apply prepare_row_columns, Hvalid.
Qed.

Lemma prepared_columns_witness :
  Forall (fun r => valid_date (InputRow.date r) = true) year_rows /\
  __init__ year_rows (construct year_rows) /\
  List.length (construct year_rows) = List.length year_rows /\
  Forall calendar_columns (construct year_rows).
Proof.
  assert (Hv : Forall (fun r => valid_date (InputRow.date r) = true) year_rows)
    by (repeat constructor).
  pose proof (init_construct year_rows) as Hi.
  split; [exact Hv|]. split; [exact Hi|].
  exact (prepared_columns year_rows (construct year_rows) Hv Hi).
Defined.

(** ** How many monthly bins there are *)

Lemma month_extremes_exist (data : list Row.t) :
  data <> [] -> exists a b, month_extremes data a b.
Proof.
  intros Hne. destruct data as [|r0 rest]; [congruence|].
  pose proof (fold_min_attained (row_month r0) (map row_month rest)) as Hlo.
  pose proof (fold_max_attained (row_month r0) (map row_month rest)) as Hhi.
  change (row_month r0 :: map row_month rest)
    with (map row_month (r0 :: rest)) in Hlo, Hhi.
  apply in_map_iff in Hlo. destruct Hlo as [a [Ha Hina]].
  apply in_map_iff in Hhi. destruct Hhi as [b [Hb Hinb]].
  exists a, b. split; [exact Hina|]. split; [exact Hinb|].
  intros r Hr. rewrite Ha, Hb.
  assert (Hin : In (row_month r) (row_month r0 :: map row_month rest))
    by (change (In (row_month r) (map row_month (r0 :: rest)));
        now apply in_map).
  split; [now apply fold_min_lower|now apply fold_max_upper].
Qed.

Lemma monthly_sum_length (data : list Row.t) (a b : Row.t) :
  month_extremes data a b ->
  Z.of_nat (List.length (monthly_sum data)) = row_month b - row_month a + 1.
Proof.
  intros (Ha & Hb & Hall).
  rewrite <- (length_map fst). unfold monthly_sum. rewrite grouper_keys.
  destruct data as [|r0 rest]; [destruct Ha|].
  change (map (fun r => month_index (Row.date r)) (r0 :: rest))
    with (row_month r0 :: map row_month rest). cbv iota.
  rewrite zrange_length.
  assert (Hin : forall r, In r (r0 :: rest) ->
                  In (row_month r) (row_month r0 :: map row_month rest)).
  { intros r Hr. change (In (row_month r) (map row_month (r0 :: rest))).
    now apply in_map. }
  pose proof (fold_min_lower _ _ _ (Hin a Ha)) as H1.
  pose proof (fold_max_upper _ _ _ (Hin b Hb)) as H2.
  pose proof (fold_min_attained (row_month r0) (map row_month rest)) as H3.
  pose proof (fold_max_attained (row_month r0) (map row_month rest)) as H4.
  change (row_month r0 :: map row_month rest)
    with (map row_month (r0 :: rest)) in H3, H4.
  apply in_map_iff in H3. destruct H3 as [lo [Elo Hlo]].
  apply in_map_iff in H4. destruct H4 as [hi [Ehi Hhi]].
  pose proof (Hall lo Hlo). pose proof (Hall hi Hhi). lia.
Qed.

(** X4. The monthly table of a non-empty detector has exactly as many
    bins as there are calendar months from the month of its earliest row
    to the month of its latest row, both included, whether or not the
    months in between hold rows.  So [detect_seasonal_pattern] reports
    insufficient data, without calling the library, exactly when that
    span is shorter than [2 * period] months. *)
Theorem bins_are_the_calendar_span
    (data : list Row.t) (a b : Row.t) (period : Z) :
  month_extremes data a b ->
  Z.of_nat (List.length (monthly_sum data)) = row_month b - row_month a + 1 /\
  (row_month b - row_month a + 1 < 2 * period <->
   detect_seasonal_pattern data period =
     Ret (Returned
            (InsufficientData "Insufficient data for seasonal decomposition"
               (2 * period) (row_month b - row_month a + 1)))) /\
  (forall lib,
     invocations lib (detect_seasonal_pattern data period) =
       if row_month b - row_month a + 1 <? 2 * period then 0%nat else 1%nat).
Proof.
  intros Hext. pose proof (monthly_sum_length data a b Hext) as Hlen.
  split; [exact Hlen|].
  unfold detect_seasonal_pattern. rewrite Hlen.
  destruct (Z.ltb_spec (row_month b - row_month a + 1) (2 * period)).
  - split; [tauto|]. reflexivity.
  - split.
    + split; [lia|discriminate].
    + intros lib. simpl. now destruct (lib (monthly_sum data) period).
Qed.

Lemma bins_are_the_calendar_span_witness :
  month_extremes (_prepare_data gap_rows)
    (prepare_row (InputRow.mk (mkDate 2023 1 15) 10))
    (prepare_row (InputRow.mk (mkDate 2023 3 10) 20)) /\
  Z.of_nat (List.length (monthly_sum (_prepare_data gap_rows))) = 3.
Proof.
  assert (H : month_extremes (_prepare_data gap_rows)
                (prepare_row (InputRow.mk (mkDate 2023 1 15) 10))
                (prepare_row (InputRow.mk (mkDate 2023 3 10) 20))).
  { split; [simpl; tauto|]. split; [simpl; tauto|].
    intros r [<-|[<-|[]]]; vm_compute; intuition discriminate. }
  split; [exact H|].
  exact (proj1 (bins_are_the_calendar_span _ _ _ 12 H)).
Defined.

(** ** The call of the decomposition *)

(** X5. When the guard does not fire, which is always the case for a
    period of zero or less, even on an empty table,
    [detect_seasonal_pattern] calls [seasonal_decompose] exactly once, on
    the monthly table, with the additive model, the caller's period and
    trend extrapolation ['freq']; it returns the library's four series
    unchanged under [trend], [seasonal], [residual] and [observed], and
    an error of the library propagates unchanged. *)
Theorem decomposition_call (data : list Row.t) (period : Z)
    (lib : list (Z * Z) -> Z -> Outcome DecomposeResult) :
  period <= 0 \/ 2 * period <= Z.of_nat (List.length (monthly_sum data)) ->
  call_log lib (detect_seasonal_pattern data period) =
    [ {| call_x := monthly_sum data; call_model := "additive";
         call_period := period; call_extrapolate_trend := "freq" |} ] /\
  (forall d, lib (monthly_sum data) period = Returned d ->
     run lib (detect_seasonal_pattern data period) =
       Returned (Components (dr_trend d) (dr_seasonal d) (dr_resid d)
                   (dr_observed d))) /\
  (forall e, lib (monthly_sum data) period = Raised e ->
     run lib (detect_seasonal_pattern data period) = Raised e).
Proof.
  intros Hguard. unfold detect_seasonal_pattern.
  destruct (Z.ltb_spec (Z.of_nat (List.length (monthly_sum data)))
              (2 * period)); [lia|].
  split; [|split].
  - simpl. now destruct (lib (monthly_sum data) period).
  - intros d Hd. simpl. now rewrite Hd.
  - intros e He. simpl. now rewrite He.
Qed.

Lemma decomposition_call_witness :
  (0 <= 0 \/ 2 * 0 <= Z.of_nat (List.length (monthly_sum []))) /\
  call_log (fun _ _ => Raised "empty series") (detect_seasonal_pattern [] 0) =
    [ {| call_x := []; call_model := "additive";
         call_period := 0; call_extrapolate_trend := "freq" |} ].
Proof.
  assert (H : 0 <= 0 \/ 2 * 0 <= Z.of_nat (List.length (monthly_sum [])))
    by (left; lia).
  split; [exact H|].
  exact (proj1 (decomposition_call [] 0 (fun _ _ => Raised "empty series") H)).
Defined.

(** ** What a reported anomaly is *)

Lemma anomaly_in (data : list Row.t) (threshold : float64) (a : Anomaly.t) :
  In a (detect_anomalous_periods data threshold) ->
  exists row,
    In row (z_scores (monthly_sum data)) /\
    np_gt (np_abs (snd row)) threshold = true /\
    a = anomaly_of row.
Proof.
  unfold detect_anomalous_periods. intros Hin. apply in_map_iff in Hin.
  destruct Hin as [row [<- Hrow]]. apply filter_In in Hrow.
  exists row. tauto.
Qed.

(** A z-score that passes a comparison is a number: there are at least two
    bins, the standard deviation is positive, and the z-score is the one
    of the specification. *)
Lemma passing_z_score (data : list Row.t) (threshold : float64)
    (row : (Z * Z) * float64) :
  In row (z_scores (monthly_sum data)) ->
  np_gt (np_abs (snd row)) threshold = true ->
  (2 <= List.length (monthly_sum data))%nat /\
  (0 < spec_std (monthly_totals data))%R /\
  snd row = Fnum (spec_z_score (monthly_totals data) (IZR (snd (fst row)))).
Proof.
  intros Hin Hgt.
  assert (Hlen : (2 <= List.length (monthly_sum data))%nat).
  { destruct (Nat.leb_spec 2 (List.length (monthly_sum data))); [assumption|].
    rewrite (z_scores_undefined _ H row Hin) in Hgt.
    simpl in Hgt. now rewrite np_gt_nan in Hgt. }
  assert (Hlen' : (2 <= List.length (monthly_totals data))%nat)
    by (unfold monthly_totals; now rewrite length_map).
  destruct (series_mean_std_spec _ Hlen') as [Hmean Hsd].
  assert (Hpos : (0 < spec_std (monthly_totals data))%R).
  { destruct (Req_dec_T (spec_std (monthly_totals data)) 0) as [E|E].
    - rewrite E in Hsd.
      rewrite (z_scores_flat _ Hsd row Hin) in Hgt.
      simpl in Hgt. now rewrite np_gt_nan in Hgt.
    - pose proof (sqrt_pos
        (sum_float (map (fun x => (x - spec_mean (monthly_totals data)) ^ 2)%R
                      (monthly_totals data))
         / INR (List.length (monthly_totals data) - 1))) as Hge.
      fold (spec_std (monthly_totals data)) in Hge. lra. }
  split; [exact Hlen|]. split; [exact Hpos|].
  apply z_scores_in in Hin. destruct Hin as [_ Hz].
  fold (monthly_totals data) in Hz. rewrite Hz, Hmean, Hsd. simpl.
  rewrite (proj2 (Reqb_false _ _)) by lra. reflexivity.
Qed.




(** ** The records come in the order of the months *)

Lemma Forall2_map_in {A B C : Type} (P : B -> C -> Prop) (f : A -> B)
    (g : A -> C) (l : list A) :
  (forall x, In x l -> P (f x) (g x)) -> Forall2 P (map f l) (map g l).
Proof.
  induction l as [|x l IH]; intros H; simpl; constructor.
  - apply H. now left.
  - apply IH. intros y Hy. apply H. now right.
Qed.

(** X16. The list [detect_anomalous_periods] returns follows the calendar:
    its records stand for strictly ascending months, at most one record a
    month, each month within the span of the table.  A record carries the
    label of its month and the [int64] sum of the counts of the rows of
    that month; its score is a number whose absolute value is above the
    threshold, positive for a spike and not positive for a drop. *)
Theorem anomalies_in_month_order (data : list Row.t) (threshold : float64) :
  exists months : list Z,
    StronglySorted Z.lt months /\
    Forall2 (record_of_month data threshold) months
      (detect_anomalous_periods data threshold).
Proof.
  unfold detect_anomalous_periods.
  set (kept := filter (fun row => np_gt (np_abs (snd row)) threshold)
                 (z_scores (monthly_sum data))).
  exists (map (fun row : Z * Z * float64 => fst (fst row)) kept). split.
  - apply StronglySorted_map_iff.
    apply StronglySorted_filter, z_scores_chronological.
  - apply Forall2_map_in. intros [[m t] z0] Hkept.
    apply filter_In in Hkept. destruct Hkept as [Hrow Hgt].
    destruct (passing_z_score _ _ _ Hrow Hgt) as (_ & _ & Hz).
    cbn [fst snd] in *. subst z0.
    set (z := spec_z_score (monthly_totals data) (IZR t)) in *.
    apply z_scores_in in Hrow. destruct Hrow as [Hbin _]. cbn [fst] in Hbin.
    split; [|split; [reflexivity|split]].
    + apply (grouper_keys_span Row.date Row.enrolments data m).
      change m with (fst (m, t)). now apply in_map.
    + cbn [anomaly_of Anomaly.enrolments fst snd].
      rewrite (grouper_total Row.date Row.enrolments data m t Hbin).
      apply sum_int64_spec.
    + exists z. split; [reflexivity|]. split; [|split].
      * intros th ->. unfold np_gt, np_abs, np_lt in Hgt.
        now apply Rltb_true in Hgt.
      * unfold anomaly_of, np_gt, np_lt. cbn [snd Anomaly.type].
        destruct (Rltb 0 z) eqn:E.
        -- apply Rltb_true in E. split; [intros _; exact E|reflexivity].
        -- apply Rltb_false in E. split; [discriminate|intros H; lra].
      * unfold anomaly_of, np_gt, np_lt. cbn [snd Anomaly.type].
        destruct (Rltb 0 z) eqn:E.
        -- apply Rltb_true in E. split; [discriminate|intros H; lra].
        -- apply Rltb_false in E. split; [intros _; lra|reflexivity].
Qed.

(** ** Raising the threshold *)

Lemma filter_incl_length {A : Type} (f g : A -> bool) (l : list A) :
  (forall x, In x l -> f x = true -> g x = true) ->
  incl (filter f l) (filter g l) /\
  (List.length (filter f l) <= List.length (filter g l))%nat.
Proof.
  intros H. split.
  - intros x Hx. apply filter_In in Hx. apply filter_In.
    split; [tauto|]. apply H; tauto.
  - induction l as [|a l IH]; simpl; [lia|].
    assert (IH' : (List.length (filter f l) <= List.length (filter g l))%nat)
      by (apply IH; intros; apply H; [now right|assumption]).
    destruct (f a) eqn:Ef.
    + rewrite (H a (or_introl eq_refl) Ef). simpl. lia.
    + destruct (g a); simpl; lia.
Qed.

Lemma np_gt_weaken (z : float64) (t1 t2 : R) :
  (t1 <= t2)%R -> np_gt z (Fnum t2) = true -> np_gt z (Fnum t1) = true.
Proof.
  intros Hle. unfold np_gt, np_lt. destruct z as [x|s|]; auto.
  rewrite !Rltb_true. lra.
Qed.

(** X7. A higher threshold reports fewer months: every record returned
    for a threshold is also returned for any lower threshold, so the
    number of records does not grow with the threshold, and it never
    exceeds the number of monthly bins.  A threshold that is NaN reports
    nothing. *)
Theorem threshold_monotone (data : list Row.t) (t1 t2 : R) :
  (t1 <= t2)%R ->
  incl (detect_anomalous_periods data (Fnum t2))
       (detect_anomalous_periods data (Fnum t1)) /\
  (List.length (detect_anomalous_periods data (Fnum t2))
   <= List.length (detect_anomalous_periods data (Fnum t1))
   <= List.length (monthly_sum data))%nat /\
  detect_anomalous_periods data Fnan = [].
Proof.
  intros Hle. unfold detect_anomalous_periods.
  destruct (filter_incl_length
              (fun row => np_gt (np_abs (snd row)) (Fnum t2))
              (fun row => np_gt (np_abs (snd row)) (Fnum t1))
              (z_scores (monthly_sum data))) as [Hincl Hlen].
  { intros row _. now apply np_gt_weaken. }
  split; [|split; [split|]].
  - intros a Ha. apply in_map_iff in Ha. destruct Ha as [row [<- Hrow]].
    apply in_map, Hincl, Hrow.
  - now rewrite !length_map.
  - rewrite length_map.
    rewrite <- (z_scores_fst (monthly_sum data)) at 2. rewrite length_map.
    apply filter_length_le.
  - clear. induction (z_scores (monthly_sum data)) as [|row l IH];
      [reflexivity|].
    simpl. replace (np_gt (np_abs (snd row)) Fnan) with false; [exact IH|].
    unfold np_gt, np_lt. now destruct (np_abs (snd row)).
Qed.

Lemma threshold_monotone_witness :
  (1 / 2 <= 2)%R /\
  incl (detect_anomalous_periods (_prepare_data gap_rows) (Fnum 2))
       (detect_anomalous_periods (_prepare_data gap_rows) (Fnum (1 / 2))).
Proof.
  assert (H : (1 / 2 <= 2)%R) by lra.
  split; [exact H|].
  exact (proj1 (threshold_monotone (_prepare_data gap_rows) (1 / 2) 2 H)).
Defined.

(** ** How large a z-score can be *)

Lemma cauchy_step (k Q s y : R) :
  (0 <= k)%R -> (0 <= Q)%R -> (s * s <= k * Q)%R ->
  ((y + s) * (y + s) <= (k + 1) * (y * y + Q))%R.
Proof.
  intros Hk HQ Hs. destruct (Req_dec_T k 0) as [->|Hne].
  - assert (s = 0)%R by nra. subst s. nra.
  - assert (Hpos : (0 < k)%R) by lra.
    apply (Rmult_le_reg_l k); [exact Hpos|].
    pose proof (Rle_0_sqr (k * y - s)) as Hsq. unfold Rsqr in Hsq.
    nra.
Qed.

Lemma sum_squares_nonneg (l : list R) : (0 <= sum_squares l)%R.
Proof.
  apply sum_float_nonneg. intros s Hs. apply in_map_iff in Hs.
  destruct Hs as [y [<- _]]. nra.
Qed.

Lemma cauchy_schwarz (l : list R) :
  (sum_float l * sum_float l <= INR (List.length l) * sum_squares l)%R.
Proof.
  induction l as [|y l IH].
  - simpl. unfold sum_squares. simpl. lra.
  - change (sum_float (y :: l)) with (y + sum_float l)%R.
    change (sum_squares (y :: l)) with (y * y + sum_squares l)%R.
    change (List.length (y :: l)) with (S (List.length l)). rewrite S_INR.
    apply cauchy_step; [apply pos_INR|apply sum_squares_nonneg|exact IH].
Qed.

(** One term against the others, for any list and any of its terms. *)
Lemma one_against_the_rest (l : list R) (d : R) :
  In d l ->
  ((sum_float l - d) * (sum_float l - d)
   <= (INR (List.length l) - 1) * (sum_squares l - d * d))%R /\
  (0 <= sum_squares l - d * d)%R.
Proof.
  induction l as [|y l IH]; intros Hin; [destruct Hin|].
  change (sum_float (y :: l)) with (y + sum_float l)%R.
  change (sum_squares (y :: l)) with (y * y + sum_squares l)%R.
  change (List.length (y :: l)) with (S (List.length l)). rewrite S_INR.
  destruct Hin as [->|Hin].
  - pose proof (cauchy_schwarz l). pose proof (sum_squares_nonneg l).
    split; [|lra].
    replace (d + sum_float l - d)%R with (sum_float l) by ring.
    replace (INR (List.length l) + 1 - 1)%R with (INR (List.length l)) by ring.
    replace (d * d + sum_squares l - d * d)%R with (sum_squares l) by ring.
    assumption.
  - destruct (IH Hin) as [IH1 IH2]. split; [|nra].
    assert (Hlen : (1 <= INR (List.length l))%R).
    { change 1%R with (INR 1). apply le_INR.
      destruct l; [destruct Hin|simpl; lia]. }
    replace (y + sum_float l - d)%R with (y + (sum_float l - d))%R by ring.
    replace (INR (List.length l) + 1 - 1)%R
      with ((INR (List.length l) - 1) + 1)%R by ring.
    replace (y * y + sum_squares l - d * d)%R
      with (y * y + (sum_squares l - d * d))%R by ring.
    apply cauchy_step; [lra|exact IH2|exact IH1].
Qed.

Lemma sum_float_shift (c : R) (xs : list R) :
  sum_float (map (fun x => x - c)%R xs)
  = (sum_float xs - INR (List.length xs) * c)%R.
Proof.
  induction xs as [|x xs IH].
  - simpl. ring.
  - change (List.length (x :: xs)) with (S (List.length xs)). rewrite S_INR.
    simpl. rewrite IH. ring.
Qed.

(** No value lies further from the mean than [(N - 1) / sqrt N] sample
    standard deviations. *)
Lemma z_score_bound (xs : list R) (x : R) :
  (2 <= List.length xs)%nat -> In x xs -> (0 < spec_std xs)%R ->
  (INR (List.length xs) * (spec_z_score xs x * spec_z_score xs x)
   <= (INR (List.length xs) - 1) * (INR (List.length xs) - 1))%R.
Proof.
  intros Hlen Hin Hpos.
  assert (Hn : (2 <= INR (List.length xs))%R)
    by (change 2%R with (INR 2); now apply le_INR).
  set (mu := spec_mean xs) in *. set (n := INR (List.length xs)) in *.
  set (S := sum_float (map (fun y => (y - mu) ^ 2)%R xs)).
  assert (Hs2 : (spec_std xs * spec_std xs = S / (n - 1))%R).
  { unfold spec_std. fold mu. fold S.
    rewrite minus_INR by lia. fold n. change (INR 1) with 1%R.
    apply sqrt_sqrt. apply Rmult_le_pos.
    - apply sum_float_nonneg. intros s Hs. apply in_map_iff in Hs.
      destruct Hs as [y [<- _]]. apply pow2_ge_0.
    - apply Rlt_le, Rinv_0_lt_compat. lra. }
  assert (Hdev : sum_float (map (fun y => y - mu)%R xs) = 0%R).
  { rewrite sum_float_shift. fold n. unfold mu, spec_mean. fold n. field. lra. }
  assert (HS : sum_squares (map (fun y => y - mu)%R xs) = S).
  { unfold sum_squares, S. rewrite map_map. f_equal.
    apply map_ext. intros y. ring. }
  destruct (one_against_the_rest (map (fun y => y - mu)%R xs) (x - mu))
    as [Hone _].
  { apply in_map_iff. exists x. auto. }
  rewrite Hdev, HS, length_map in Hone. fold n in Hone.
  assert (Hd : (n * ((x - mu) * (x - mu)) <= (n - 1) * S)%R) by nra.
  assert (Hz : (spec_z_score xs x * spec_std xs = x - mu)%R).
  { unfold spec_z_score. fold mu. field. lra. }
  assert (HS' : (S = (n - 1) * (spec_std xs * spec_std xs))%R).
  { rewrite Hs2. field. lra. }
  rewrite <- Hz, HS' in Hd.
  assert (Hsq : (0 < spec_std xs * spec_std xs)%R) by nra.
  apply (Rmult_le_reg_r (spec_std xs * spec_std xs)); [exact Hsq|].
  nra.
Qed.

Lemma no_anomaly_above_bound (data : list Row.t) (t : R) :
  (0 <= t)%R ->
  ((INR (List.length (monthly_sum data)) - 1)
   * (INR (List.length (monthly_sum data)) - 1)
   <= INR (List.length (monthly_sum data)) * (t * t))%R ->
  detect_anomalous_periods data (Fnum t) = [].
Proof.
  intros Ht Hbound.
  destruct (detect_anomalous_periods data (Fnum t)) as [|a l] eqn:E;
    [reflexivity|exfalso].
  assert (Hin : In a (detect_anomalous_periods data (Fnum t)))
    by (rewrite E; now left).
  destruct (anomaly_in _ _ _ Hin) as [row (Hrow & Hgt & _)].
  destruct (passing_z_score _ _ _ Hrow Hgt) as (Hlen & Hpos & Hz).
  rewrite Hz in Hgt. unfold np_gt, np_abs, np_lt in Hgt.
  apply Rltb_true in Hgt.
  assert (Hx : In (IZR (snd (fst row))) (monthly_totals data)).
  { unfold monthly_totals. apply in_map_iff. exists (fst row). split; auto.
    apply z_scores_in in Hrow. apply Hrow. }
  assert (Hlen' : (2 <= List.length (monthly_totals data))%nat)
    by (unfold monthly_totals; now rewrite length_map).
  pose proof (z_score_bound _ _ Hlen' Hx Hpos) as Hz2.
  unfold monthly_totals in Hz2 at 1 4 5. rewrite !length_map in Hz2.
  fold (monthly_totals data) in Hz2.
  set (z := spec_z_score (monthly_totals data) (IZR (snd (fst row)))) in *.
  set (n := INR (List.length (monthly_sum data))) in *.
  assert (Hn : (2 <= n)%R)
    by (change 2%R with (INR 2); now apply le_INR).
  assert (Hzz : (t * t < z * z)%R).
  { assert (Habs : (Rabs z * Rabs z = z * z)%R).
    { unfold Rabs. destruct (Rcase_abs z); ring. }
    rewrite <- Habs. nra. }
  nra.
Qed.

(** X8. A month can be flagged only if there are enough bins: with [N]
    bins no threshold [t >= 0] with [N <= t^2] reports anything, and with
    five bins or fewer no threshold [t >= 2] does.  With the default
    threshold 2.0 a monthly table of five bins or fewer reports nothing,
    and every summary of such a table has an empty [anomalous_periods]. *)
Theorem few_bins_no_anomaly (data : list Row.t) :
  (forall t : R,
     (0 <= t)%R ->
     (INR (List.length (monthly_sum data)) <= t * t)%R ->
     detect_anomalous_periods data (Fnum t) = []) /\
  ((List.length (monthly_sum data) <= 5)%nat ->
   (forall t : R, (2 <= t)%R -> detect_anomalous_periods data (Fnum t) = []) /\
   forall s, get_seasonal_summary data s -> anomalous_periods s = []).
Proof.
  assert (Hshort : (List.length (monthly_sum data) < 2)%nat ->
            forall t, detect_anomalous_periods data t = []).
  { intros H2 t. apply no_anomalies_when_nan. now apply z_scores_undefined. }
  split.
  - intros t Ht Hn.
    destruct (Nat.leb_spec 2 (List.length (monthly_sum data))) as [H2|H2];
      [|now apply Hshort].
    apply no_anomaly_above_bound; [exact Ht|].
    assert (Hn2 : (2 <= INR (List.length (monthly_sum data)))%R)
      by (change 2%R with (INR 2); now apply le_INR).
    nra.
  - intros Hlen.
    assert (H : forall t : R, (2 <= t)%R ->
                detect_anomalous_periods data (Fnum t) = []).
    { intros t Ht.
      destruct (Nat.leb_spec 2 (List.length (monthly_sum data))) as [H2|H2];
        [|now apply Hshort].
      apply no_anomaly_above_bound; [lra|].
      assert (Hc : List.length (monthly_sum data) = 2%nat \/
                   List.length (monthly_sum data) = 3%nat \/
                   List.length (monthly_sum data) = 4%nat \/
                   List.length (monthly_sum data) = 5%nat) by lia.
      destruct Hc as [->|[->|[->| ->]]]; simpl; nra. }
    split; [exact H|].
    intros s (_ & _ & _ & Ha & _). rewrite Ha. apply H. lra.
Qed.

Lemma few_bins_no_anomaly_witness :
  (List.length (monthly_sum (_prepare_data gap_rows)) <= 5)%nat /\
  detect_anomalous_periods (_prepare_data gap_rows) (Fnum 2) = [].
Proof.
  assert (H : (List.length (monthly_sum (_prepare_data gap_rows)) <= 5)%nat)
    by (vm_compute; lia).
  split; [exact H|].
  exact (proj1 (proj2 (few_bins_no_anomaly (_prepare_data gap_rows)) H)
           2%R (Rle_refl 2)).
Defined.

(** ** When the seasonality strength is a number *)






(** ** Peak tables and the total *)

Lemma sum_float_perm (l l' : list R) :
  Permutation l l' -> sum_float l = sum_float l'.
Proof. induction 1; simpl; lra. Qed.

Lemma sum_float_IZR_map {B : Type} (f : B -> Z) (l : list B) :
  sum_float (map (fun x => IZR (f x)) l) = IZR (sum_int (map f l)).
Proof. rewrite <- sum_float_IZR, map_map. reflexivity. Qed.

Lemma sum_int_bounds (lo hi : Z) (l : list Z) :
  (forall x, In x l -> lo <= x <= hi) ->
  Z.of_nat (List.length l) * lo <= sum_int l <= Z.of_nat (List.length l) * hi.
Proof.
  induction l as [|x l IH]; intros H; [simpl; lia|].
  change (List.length (x :: l)) with (S (List.length l)).
  pose proof (H x (or_introl eq_refl)).
  assert (IH' := IH (fun y Hy => H y (or_intror Hy))).
  simpl sum_int. lia.
Qed.

Section PeakTable.

Context (key : Row.t -> Z) (data : list Row.t) (out : list (Z * R)).
Hypothesis Hout : sort_values descending (groupby_mean key Row.enrolments data) out.

Lemma peak_table_weighted_total :
  weighted_total key data out = IZR (sum_int (map Row.enrolments data)).
Proof.
  destruct Hout as [Hperm _]. unfold weighted_total.
  rewrite <- (sum_float_perm _ _
    (Permutation_map
       (fun kv => snd kv * INR (List.length (group key (fst kv) data)))%R
       Hperm)).
  rewrite (map_ext_in _
    (fun kv => IZR (sum_int (map Row.enrolments (group key (fst kv) data))))).
  - rewrite <- (map_map fst
      (fun k => IZR (sum_int (map Row.enrolments (group key k data))))).
    rewrite groupby_mean_keys, sum_float_IZR_map. f_equal.
    apply groups_partition_sum.
    + apply StronglySorted_lt_NoDup, group_keys_sorted.
    + intros r Hr. apply group_keys_in. now apply in_map.
  - intros [k v] Hin. simpl.
    destruct (groupby_mean_value key Row.enrolments data k v Hin) as [Hne ->].
    field. apply not_0_INR. destruct (group key k data); [congruence|].
    discriminate.
Qed.

Lemma peak_table_head : head_is_peak out.
Proof.
  destruct Hout as [_ Hsorted]. intros k v rest -> k' v' Hin.
  inversion Hsorted as [|? ? _ Hall]; subst.
  destruct Hin as [E|Hin]; [inversion E; lra|].
  rewrite Forall_forall in Hall. exact (Hall _ Hin).
Qed.

Lemma peak_table_bounds (lo hi : Z) :
  (forall r, In r data -> lo <= Row.enrolments r <= hi) ->
  forall k v, In (k, v) out -> (IZR lo <= v <= IZR hi)%R.
Proof.
  intros Hb k v Hin. destruct Hout as [Hperm _].
  apply (Permutation_in _ (Permutation_sym Hperm)) in Hin.
  destruct (groupby_mean_value key Row.enrolments data k v Hin) as [Hne ->].
  assert (Hlen : (0 < INR (List.length (group key k data)))%R).
  { apply lt_0_INR. destruct (group key k data); [congruence|simpl; lia]. }
  pose proof (sum_int_bounds lo hi (map Row.enrolments (group key k data)))
    as Hs.
  rewrite length_map in Hs.
  destruct Hs as [Hs1 Hs2].
  { intros x Hx. apply in_map_iff in Hx. destruct Hx as [r [<- Hr]].
    apply Hb. unfold group in Hr. now apply filter_In in Hr. }
  apply IZR_le in Hs1, Hs2. rewrite mult_IZR, <- INR_IZR_INZ in Hs1, Hs2.
  pose proof (Rinv_0_lt_compat _ Hlen) as Hinv.
  unfold Rdiv. split.
  - apply (Rmult_le_reg_r (INR (List.length (group key k data))));
      [exact Hlen|].
    rewrite Rmult_assoc, Rinv_l by lra. lra.
  - apply (Rmult_le_reg_r (INR (List.length (group key k data))));
      [exact Hlen|].
    rewrite Rmult_assoc, Rinv_l by lra. lra.
Qed.

End PeakTable.

(** X10. In every summary the two peak tables agree with the counts: the
    monthly means, each multiplied by the number of rows of its month, add
    up to the sum of all counts, and so do the quarterly means weighted by
    the rows of their quarter; that sum is [total_enrolments] whenever it
    fits in an [int64] ([total_enrolments] is an [int64] sum and wraps
    around otherwise, while the means are [float64]).  The first entry of
    each table holds the highest mean, and every mean lies between the
    smallest and the largest count of the table. *)
Theorem summary_peaks_and_total (data : list Row.t) (s : SeasonalSummary)
    (lo hi : Z) :
  get_seasonal_summary data s ->
  (forall r, In r data -> lo <= Row.enrolments r <= hi) ->
  weighted_total Row.month data (peak_months s)
    = IZR (sum_int (map Row.enrolments data)) /\
  weighted_total Row.quarter data (peak_quarters s)
    = IZR (sum_int (map Row.enrolments data)) /\
  is_int64_sum (map Row.enrolments data) (total_enrolments s) /\
  (fits_int64 (sum_int (map Row.enrolments data)) ->
   total_enrolments s = sum_int (map Row.enrolments data)) /\
  head_is_peak (peak_months s) /\
  head_is_peak (peak_quarters s) /\
  (forall k v, In (k, v) (peak_months s) \/ In (k, v) (peak_quarters s) ->
     (IZR lo <= v <= IZR hi)%R).
Proof.
  intros (Hm & Hq & _ & _ & Ht & _) Hb.
  split; [exact (peak_table_weighted_total _ _ _ Hm)|].
  split; [exact (peak_table_weighted_total _ _ _ Hq)|].
  split; [rewrite Ht; apply sum_int64_spec|].
  split; [intros Hfit; rewrite Ht; apply wrap_int64_fits, Hfit|].
  split; [exact (peak_table_head _ _ _ Hm)|].
  split; [exact (peak_table_head _ _ _ Hq)|].
  intros k v [Hin|Hin].
  - exact (peak_table_bounds _ _ _ Hm lo hi Hb k v Hin).
  - exact (peak_table_bounds _ _ _ Hq lo hi Hb k v Hin).
Qed.

Lemma summary_peaks_and_total_witness :
  get_seasonal_summary (_prepare_data gap_rows)
    (summary_of (_prepare_data gap_rows)) /\
  (forall r, In r (_prepare_data gap_rows) -> 10 <= Row.enrolments r <= 20) /\
  weighted_total Row.month (_prepare_data gap_rows)
    (peak_months (summary_of (_prepare_data gap_rows))) = IZR 30.
Proof.
  pose proof (get_seasonal_summary_of (_prepare_data gap_rows)) as H1.
  assert (H2 : forall r, In r (_prepare_data gap_rows) ->
                         10 <= Row.enrolments r <= 20).
  { intros r [<-|[<-|[]]]; simpl; lia. }
  split; [exact H1|]. split; [exact H2|].
  exact (proj1 (summary_peaks_and_total _ _ 10 20 H1 H2)).
Defined.

(** ** The empty table *)

(** X11. An empty input is accepted everywhere and nothing raises: the
    constructor yields the empty table only; on it both peak queries
    return the empty mapping, the seasonality strength is NaN, no anomaly
    is reported for any threshold, [detect_seasonal_pattern] reports
    insufficient data with 0 available periods for every positive period,
    and the one summary has empty tables, total 0 and a NaN average. *)
Theorem empty_table :
  (forall data, __init__ [] data <-> data = []) /\
  (forall out, identify_peak_months [] out <-> out = []) /\
  (forall out, identify_peak_quarters [] out <-> out = []) /\
  calculate_seasonality_strength [] = Fnan /\
  (forall threshold, detect_anomalous_periods [] threshold = []) /\
  (forall period, 0 < period ->
     detect_seasonal_pattern [] period =
       Ret (Returned
              (InsufficientData "Insufficient data for seasonal decomposition"
                 (2 * period) 0))) /\
  (forall s, get_seasonal_summary [] s <->
     s = {| peak_months := []; peak_quarters := [];
            seasonality_strength := Fnan; anomalous_periods := [];
            total_enrolments := 0; average_monthly_enrolments := Fnan |}).
Proof.
  assert (Hsort : forall out : list (Z * R),
            sort_values descending [] out <-> out = []).
  { intros out. split.
    - intros [Hp _]. now apply Permutation_nil in Hp.
    - intros ->. split; constructor. }
  split; [|split; [|split; [|split; [|split; [|split]]]]].
  - intros data. split.
    + intros [sorted [[Hp _] ->]]. apply Permutation_nil in Hp. now subst.
    + intros ->. exists []. split; [split; constructor|reflexivity].
  - exact Hsort.
  - exact Hsort.
  - reflexivity.
  - reflexivity.
  - intros period Hp. unfold detect_seasonal_pattern.
    change (Z.of_nat (List.length (monthly_sum []))) with 0.
    destruct (Z.ltb_spec 0 (2 * period)); [reflexivity|lia].
  - intros s. unfold get_seasonal_summary, identify_peak_months,
      identify_peak_quarters. simpl.
    rewrite !Hsort. destruct s; simpl. split.
    + intros (-> & -> & -> & -> & -> & ->). reflexivity.
    + intros E. inversion E. repeat split.
Qed.

(** ** Period labels *)

Lemma append_last_inj (s1 s2 : string) (c1 c2 : ascii) :
  (s1 ++ String c1 EmptyString)%string = (s2 ++ String c2 EmptyString)%string ->
  s1 = s2 /\ c1 = c2.
Proof.
  revert s2. induction s1 as [|a s1 IH]; intros [|b s2] H; simpl in H.
  - now inversion H.
  - inversion H. destruct s2; discriminate.
  - inversion H. destruct s1; discriminate.
  - inversion H. destruct (IH _ H2) as [-> ->]. auto.
Qed.

Lemma append_same_length_inj (s1 s2 t1 t2 : string) :
  String.length s1 = String.length s2 ->
  (s1 ++ t1)%string = (s2 ++ t2)%string -> s1 = s2 /\ t1 = t2.
Proof.
  revert s2. induction s1 as [|a s1 IH]; intros [|b s2] Hlen H;
    simpl in *; try discriminate.
  - auto.
  - inversion H. destruct (IH s2) as [-> ->]; auto.
Qed.

Lemma append_length (s t : string) :
  String.length (s ++ t) = (String.length s + String.length t)%nat.
Proof. induction s as [|a s IH]; simpl; [reflexivity|now rewrite IH]. Qed.

Lemma zero_pad_length (w : nat) (n : Z) : String.length (zero_pad w n) = w.
Proof.
  revert n. induction w as [|w IH]; intros n; simpl; [reflexivity|].
  rewrite append_length, IH. simpl. lia.
Qed.

Lemma digit_inj (n m : Z) : digit n = digit m -> n mod 10 = m mod 10.
Proof.
  unfold digit. intros H.
  pose proof (Z.mod_pos_bound n 10). pose proof (Z.mod_pos_bound m 10).
  apply (f_equal nat_of_ascii) in H.
  rewrite !nat_ascii_embedding in H by lia. lia.
Qed.

Lemma zero_pad_inj (w : nat) (n m : Z) :
  0 <= n < 10 ^ Z.of_nat w -> 0 <= m < 10 ^ Z.of_nat w ->
  zero_pad w n = zero_pad w m -> n = m.
Proof.
  revert n m. induction w as [|w IH]; intros n m Hn Hm H.
  - simpl in Hn, Hm. lia.
  - simpl in H. apply append_last_inj in H. destruct H as [Hq Hd].
    apply digit_inj in Hd.
    rewrite Nat2Z.inj_succ, Z.pow_succ_r in Hn, Hm by lia.
    assert (n / 10 = m / 10).
    { apply IH; try assumption.
      - split; [apply Z.div_pos; lia|apply Z.div_lt_upper_bound; lia].
      - split; [apply Z.div_pos; lia|apply Z.div_lt_upper_bound; lia]. }
    rewrite (Z.div_mod n 10), (Z.div_mod m 10) by lia. lia.
Qed.

Lemma decimal_cases (n : Z) :
  (n < 10 /\ decimal n = zero_pad 1 n) \/
  (10 <= n < 100 /\ decimal n = zero_pad 2 n) \/
  (100 <= n < 1000 /\ decimal n = zero_pad 3 n) \/
  (1000 <= n /\ decimal n = zero_pad 4 n).
Proof.
  unfold decimal.
  destruct (Z.ltb_spec n 10); [now left|].
  destruct (Z.ltb_spec n 100); [right; left; split; [lia|reflexivity]|].
  destruct (Z.ltb_spec n 1000); [right; right; left; split; [lia|reflexivity]|].
  right; right; right. split; [lia|reflexivity].
Qed.

Lemma decimal_length (n : Z) :
  (1 <= String.length (decimal n) <= 4)%nat /\
  (1000 <= n -> String.length (decimal n) = 4%nat).
Proof.
  destruct (decimal_cases n) as [[H ->]|[[H ->]|[[H ->]|[H ->]]]];
    rewrite zero_pad_length; split; lia.
Qed.

(** The digits of a number below 10000 determine it. *)
Lemma decimal_inj (n m : Z) :
  0 <= n < 10000 -> 0 <= m < 10000 -> decimal n = decimal m -> n = m.
Proof.
  intros Hn Hm H. pose proof (f_equal String.length H) as Hlen.
  destruct (decimal_cases n) as [[Hn' En]|[[Hn' En]|[[Hn' En]|[Hn' En]]]];
    destruct (decimal_cases m) as [[Hm' Em]|[[Hm' Em]|[[Hm' Em]|[Hm' Em]]]];
    rewrite En, Em in *; rewrite !zero_pad_length in Hlen;
    try discriminate Hlen.
  - apply (zero_pad_inj 1); simpl; auto; lia.
  - apply (zero_pad_inj 2); simpl; auto; lia.
  - apply (zero_pad_inj 3); simpl; auto; lia.
  - apply (zero_pad_inj 4); simpl; auto; lia.
Qed.

(** The label of a month determines the month, for the years 0 to 9999. *)
Lemma strftime_Ym_inj (i j : Z) :
  0 <= i < 120000 -> 0 <= j < 120000 ->
  strftime_Ym i = strftime_Ym j -> i = j.
Proof.
  intros Hi Hj H. unfold strftime_Ym, index_year, index_month in H.
  pose proof (f_equal String.length H) as Hlen.
  rewrite !append_length, !zero_pad_length in Hlen.
  apply append_same_length_inj in H; [|lia].
  destruct H as [Hy Hm].
  apply (append_same_length_inj "-" "-") in Hm; [|reflexivity].
  destruct Hm as [_ Hm'].
  apply decimal_inj in Hy.
  - apply (zero_pad_inj 2) in Hm'.
    + rewrite (Z.div_mod i 12), (Z.div_mod j 12) by lia. lia.
    + pose proof (Z.mod_pos_bound i 12). simpl. lia.
    + pose proof (Z.mod_pos_bound j 12). simpl. lia.
  - split; [apply Z.div_pos; lia|apply Z.div_lt_upper_bound; simpl; lia].
  - split; [apply Z.div_pos; lia|apply Z.div_lt_upper_bound; simpl; lia].
Qed.

(** A label is the year's digits, a dash and two digits for the month:
    seven characters from the year 1000 on, fewer before. *)
Lemma strftime_Ym_length (i : Z) :
  (4 <= String.length (strftime_Ym i) <= 7)%nat /\
  (12000 <= i -> String.length (strftime_Ym i) = 7%nat).
Proof.
  unfold strftime_Ym. rewrite !append_length, !zero_pad_length.
  destruct (decimal_length (index_year i)) as [Hb H4].
  change (String.length "-") with 1%nat. split; [lia|].
  intros Hi. rewrite H4; [reflexivity|].
  unfold index_year. apply Z.div_le_lower_bound; lia.
Qed.

Lemma NoDup_map_inj_in {A B : Type} (f : A -> B) (l : list A) :
  (forall x y, In x l -> In y l -> f x = f y -> x = y) ->
  NoDup l -> NoDup (map f l).
Proof.
  intros Hinj Hnd. induction Hnd as [|x l Hx Hnd IH]; simpl; constructor.
  - intros Hin. apply in_map_iff in Hin. destruct Hin as [y [E Hy]].
    assert (y = x) by (apply Hinj; [now right|now left|exact E]).
    subst. contradiction.
  - apply IH. intros a b Ha Hb. apply Hinj; now right.
Qed.

(** X12. The [date] of an anomaly record is the label of its bin: the
    year as [%Y] prints it, without padding, a dash, and the month padded
    to two digits.  For tables whose years lie in 0..9999 the label
    determines the month, so the records of one result carry pairwise
    distinct dates, and a label has between four and seven characters:
    seven, [YYYY-MM], when the years of the table are 1000 or later. *)
Theorem anomaly_dates (data : list Row.t) (threshold : float64) :
  (forall r, In r data -> 0 <= row_month r < 120000) ->
  NoDup (map Anomaly.date (detect_anomalous_periods data threshold)) /\
  (forall a, In a (detect_anomalous_periods data threshold) ->
     (4 <= String.length (Anomaly.date a) <= 7)%nat) /\
  ((forall r, In r data -> 12000 <= row_month r) ->
   forall a, In a (detect_anomalous_periods data threshold) ->
     String.length (Anomaly.date a) = 7%nat) /\
  (forall d, 1 <= Calendar.month d <= 12 ->
     strftime_Ym (month_index d) =
       (decimal (Calendar.year d) ++ "-"
        ++ zero_pad 2 (Calendar.month d))%string) /\
  (forall y, 1000 <= y -> decimal y = zero_pad 4 y) /\
  (forall y, 100 <= y < 1000 -> decimal y = zero_pad 3 y).
Proof.
  intros Hrange.
  assert (Hbin : forall a, In a (detect_anomalous_periods data threshold) ->
            exists m x y, Anomaly.date a = strftime_Ym m /\
              In x data /\ In y data /\ row_month x <= m <= row_month y).
  { intros a Ha. destruct (anomaly_in _ _ _ Ha) as [row (Hrow & _ & Hd)].
    apply z_scores_in in Hrow. destruct Hrow as [Hb _].
    assert (Hk : In (fst (fst row)) (map fst (monthly_sum data)))
      by now apply in_map.
    apply grouper_keys_span in Hk. destruct Hk as (x & y & Hx & Hy & Hm).
    exists (fst (fst row)), x, y. subst a. auto. }
  split; [|split; [|split; [|split; [|split]]]].
  - unfold detect_anomalous_periods. rewrite map_map.
    set (kept := filter (fun row => np_gt (np_abs (snd row)) threshold)
                   (z_scores (monthly_sum data))).
    change (map (fun x => Anomaly.date (anomaly_of x)) kept)
      with (map (fun row => strftime_Ym (fst (fst row))) kept).
    rewrite <- (map_map (fun row : Z * Z * float64 => fst (fst row))
                  strftime_Ym).
    assert (Hsorted : StronglySorted Z.lt
                        (map (fun row : Z * Z * float64 => fst (fst row)) kept)).
    { apply StronglySorted_map_iff.
      apply StronglySorted_filter, z_scores_chronological. }
    apply NoDup_map_inj_in; [|now apply StronglySorted_lt_NoDup].
    assert (Hin : forall m,
              In m (map (fun row : Z * Z * float64 => fst (fst row)) kept) ->
              0 <= m < 120000).
    { intros m Hm. apply in_map_iff in Hm. destruct Hm as [row [<- Hrow]].
      apply filter_In in Hrow. destruct Hrow as [Hrow _].
      apply z_scores_in in Hrow. destruct Hrow as [Hb _].
      assert (Hk : In (fst (fst row)) (map fst (monthly_sum data)))
        by now apply in_map.
      apply grouper_keys_span in Hk. destruct Hk as (a & b & Ha & Hb' & Hm).
      pose proof (Hrange a Ha). pose proof (Hrange b Hb').
      unfold row_month in *. lia. }
    intros x y Hx Hy. apply strftime_Ym_inj; auto.
  - intros a Ha. destruct (Hbin a Ha) as (m & _ & _ & -> & _).
    apply strftime_Ym_length.
  - intros Hlate a Ha. destruct (Hbin a Ha) as (m & x & y & -> & Hx & _ & Hm).
    apply strftime_Ym_length. pose proof (Hlate x Hx). lia.
  - intros d Hd. unfold strftime_Ym.
    destruct (month_index_roundtrip d Hd) as [-> ->]. reflexivity.
  - intros y Hy.
    destruct (decimal_cases y) as [[H _]|[[H _]|[[H _]|[_ E]]]];
      [lia|lia|lia|exact E].
  - intros y Hy.
    destruct (decimal_cases y) as [[H _]|[[H _]|[[_ E]|[H _]]]];
      [lia|lia|exact E|lia].
Qed.

Lemma anomaly_dates_witness :
  (forall r, In r (_prepare_data gap_rows) -> 0 <= row_month r < 120000) /\
  NoDup (map Anomaly.date
           (detect_anomalous_periods (_prepare_data gap_rows) (Fnum (1 / 2)))).
Proof.
  assert (H : forall r, In r (_prepare_data gap_rows) ->
                        0 <= row_month r < 120000).
  { intros r [<-|[<-|[]]]; vm_compute; intuition discriminate. }
  split; [exact H|].
  exact (proj1 (anomaly_dates (_prepare_data gap_rows) (Fnum (1 / 2)) H)).
Defined.

(** ** Quarters are made of months *)

Lemma quarter_of_month (m q : Z) :
  1 <= m <= 12 ->
  ((m - 1) / 3 + 1 = q <-> 3 * q - 2 <= m <= 3 * q).
Proof. intros Hm. split; intros H; Z.div_mod_to_equations; lia. Qed.

Lemma quarter_group_split (data : list Row.t) (q : Z) :
  Forall calendar_columns data ->
  sum_int (map Row.enrolments (group Row.quarter q data)) =
    sum_int (map Row.enrolments (group Row.month (3 * q - 2) data))
    + sum_int (map Row.enrolments (group Row.month (3 * q - 1) data))
    + sum_int (map Row.enrolments (group Row.month (3 * q) data)) /\
  List.length (group Row.quarter q data) =
    (List.length (group Row.month (3 * q - 2) data)
     + List.length (group Row.month (3 * q - 1) data)
     + List.length (group Row.month (3 * q) data))%nat.
Proof.
  induction 1 as [|r data Hr _ IH]; [split; reflexivity|].
  destruct IH as [IHs IHl].
  destruct Hr as (Hm & _ & _ & Hq & _).
  pose proof (quarter_of_month (Row.month r) q Hm) as Hiff.
  rewrite <- Hq in Hiff.
  unfold group in *. cbn [filter].
  destruct (Z.eqb_spec (Row.quarter r) q) as [E|E];
    destruct (Z.eqb_spec (Row.month r) (3 * q - 2));
    destruct (Z.eqb_spec (Row.month r) (3 * q - 1));
    destruct (Z.eqb_spec (Row.month r) (3 * q));
    try lia; unfold sum_int in *; cbn [map fold_right List.length];
    split; lia.
Qed.

(** X13. The two peak tables fit together: in every table the constructor
    builds from valid dates, the rows of quarter [q] are the rows of the
    months [3q - 2], [3q - 1] and [3q], so the count total and the number
    of rows behind a quarterly mean are the sums of those behind the three
    monthly means. *)
Theorem quarters_are_three_months
    (rows : list InputRow.t) (data : list Row.t) (q : Z) :
  Forall (fun r => valid_date (InputRow.date r) = true) rows ->
  __init__ rows data ->
  sum_int (map Row.enrolments (group Row.quarter q data)) =
    sum_int (map Row.enrolments (group Row.month (3 * q - 2) data))
    + sum_int (map Row.enrolments (group Row.month (3 * q - 1) data))
    + sum_int (map Row.enrolments (group Row.month (3 * q) data)) /\
  List.length (group Row.quarter q data) =
    (List.length (group Row.month (3 * q - 2) data)
     + List.length (group Row.month (3 * q - 1) data)
     + List.length (group Row.month (3 * q) data))%nat.
Proof.
  intros Hvalid Hinit. apply quarter_group_split.
  apply Forall_forall. intros r Hr.
  destruct (init_rows_in _ _ Hinit r Hr) as [i [Hi ->]].
  rewrite Forall_forall in Hvalid. now apply prepare_row_columns, Hvalid.
Qed.

Lemma quarters_are_three_months_witness :
  Forall (fun r => valid_date (InputRow.date r) = true) year_rows /\
  __init__ year_rows (construct year_rows) /\
  sum_int (map Row.enrolments (group Row.quarter 2 (construct year_rows))) =
    sum_int (map Row.enrolments (group Row.month 4 (construct year_rows)))
    + sum_int (map Row.enrolments (group Row.month 5 (construct year_rows)))
    + sum_int (map Row.enrolments (group Row.month 6 (construct year_rows))).
Proof.
  assert (Hv : Forall (fun r => valid_date (InputRow.date r) = true) year_rows)
    by (repeat constructor).
  pose proof (init_construct year_rows) as Hi.
  split; [exact Hv|]. split; [exact Hi|].
  exact (proj1 (quarters_are_three_months year_rows (construct year_rows) 2
                  Hv Hi)).
Defined.

(** ** What the sort leaves open in a summary *)

Lemma sorted_reals_unique (v1 v2 : list R) :
  Permutation v1 v2 ->
  StronglySorted (fun x y => (y <= x)%R) v1 ->
  StronglySorted (fun x y => (y <= x)%R) v2 ->
  v1 = v2.
Proof.
  revert v2. induction v1 as [|x v1 IH]; intros v2 Hp Hs1 Hs2.
  - apply Permutation_nil in Hp. now subst.
  - destruct v2 as [|y v2];
      [apply Permutation_sym, Permutation_nil in Hp; discriminate|].
    inversion Hs1 as [|? ? Hs1' Hx]; subst.
    inversion Hs2 as [|? ? Hs2' Hy]; subst.
    rewrite Forall_forall in Hx, Hy.
    assert (x = y).
    { pose proof (Permutation_in x Hp (or_introl eq_refl)) as Hxin.
      pose proof (Permutation_in y (Permutation_sym Hp) (or_introl eq_refl))
        as Hyin.
      destruct Hxin as [E|Hxin]; [now symmetry|].
      destruct Hyin as [E|Hyin]; [exact E|].
      pose proof (Hx y Hyin). pose proof (Hy x Hxin). lra. }
    subst y. f_equal. apply IH; auto.
    now apply Permutation_cons_inv in Hp.
Qed.

Lemma descending_values_unique (l1 l2 : list (Z * R)) :
  Permutation l1 l2 ->
  StronglySorted descending l1 -> StronglySorted descending l2 ->
  map snd l1 = map snd l2.
Proof.
  intros Hp Hs1 Hs2. apply sorted_reals_unique.
  - now apply Permutation_map.
  - now apply StronglySorted_map_iff.
  - now apply StronglySorted_map_iff.
Qed.

(** X14. Two summaries of one table differ in nothing but the order of
    keys whose means are equal: the strength, the anomalies, the total
    and the average coincide, each peak table holds the same entries in
    both, and the sequence of mean values, from highest to lowest, is the
    same. *)
Theorem summaries_agree (data : list Row.t) (s1 s2 : SeasonalSummary) :
  get_seasonal_summary data s1 -> get_seasonal_summary data s2 ->
  seasonality_strength s1 = seasonality_strength s2 /\
  anomalous_periods s1 = anomalous_periods s2 /\
  total_enrolments s1 = total_enrolments s2 /\
  average_monthly_enrolments s1 = average_monthly_enrolments s2 /\
  Permutation (peak_months s1) (peak_months s2) /\
  Permutation (peak_quarters s1) (peak_quarters s2) /\
  map snd (peak_months s1) = map snd (peak_months s2) /\
  map snd (peak_quarters s1) = map snd (peak_quarters s2).
Proof.
  intros ([Hm1 Hms1] & [Hq1 Hqs1] & -> & -> & -> & ->)
         ([Hm2 Hms2] & [Hq2 Hqs2] & -> & -> & -> & ->).
  assert (Hpm : Permutation (peak_months s1) (peak_months s2))
    by (eapply perm_trans; [apply Permutation_sym, Hm1|exact Hm2]).
  assert (Hpq : Permutation (peak_quarters s1) (peak_quarters s2))
    by (eapply perm_trans; [apply Permutation_sym, Hq1|exact Hq2]).
  repeat split; auto; now apply descending_values_unique.
Qed.

Lemma summaries_agree_witness :
  get_seasonal_summary (_prepare_data gap_rows)
    (summary_of (_prepare_data gap_rows)) /\
  map snd (peak_months (summary_of (_prepare_data gap_rows)))
  = map snd (peak_months (summary_of (_prepare_data gap_rows))).
Proof.
  pose proof (get_seasonal_summary_of (_prepare_data gap_rows)) as H.
  split; [exact H|].
  exact (proj1 (proj2 (proj2 (proj2 (proj2 (proj2 (proj2
           (summaries_agree _ _ _ H H)))))))).
Defined.

(** ** The test suite, for every draw of its random counts *)

Example sample_dates_ends :
  List.length sample_dates = 1096%nat /\
  last sample_dates (mkDate 0 0 0) = mkDate 2025 12 31.
Proof. vm_compute. split; reflexivity. Qed.

Lemma sample_dates_valid : forallb valid_date sample_dates = true.
Proof. vm_compute. reflexivity. Qed.

Lemma sample_dates_span :
  forallb (fun d => (24276 <=? month_index d) && (month_index d <=? 24311))
    sample_dates = true.
Proof. vm_compute. reflexivity. Qed.

Lemma sample_dates_months :
  forallb (fun k => existsb (fun d => Calendar.month d =? k) sample_dates)
    [1; 2; 3; 4; 5; 6; 7; 8; 9; 10; 11; 12] = true.
Proof. vm_compute. reflexivity. Qed.

Lemma sample_dates_first_last :
  existsb (fun d => month_index d =? 24276) sample_dates = true /\
  existsb (fun d => month_index d =? 24311) sample_dates = true.
Proof. vm_compute. split; reflexivity. Qed.

Lemma map_fst_combine {A B : Type} (l1 : list A) (l2 : list B) :
  List.length l2 = List.length l1 -> map fst (combine l1 l2) = l1.
Proof.
  revert l2. induction l1 as [|a l1 IH]; intros [|b l2] H;
    try reflexivity; try discriminate.
  cbn [combine map fst]. f_equal. apply IH. simpl in H. lia.
Qed.

Opaque sample_dates.

Section TestSuite.

Variable enrolments : list Z.
Hypothesis Hdrawn : drawn enrolments.
Variable data : list Row.t.
Hypothesis Hinit : __init__ (sample_data enrolments) data.

Lemma sample_data_dates :
  map InputRow.date (sample_data enrolments) = sample_dates.
Proof.
  destruct Hdrawn as [Hlen _]. unfold sample_data. rewrite map_map.
  rewrite (map_ext _ fst) by reflexivity.
  now apply map_fst_combine.
Qed.

Lemma sample_row_in (r : Row.t) :
  In r data ->
  In (Row.date r) sample_dates /\ 50 <= Row.enrolments r < 200 /\
  exists i, r = prepare_row i.
Proof.
  intros Hr. destruct (init_rows_in _ _ Hinit r Hr) as [i [Hi ->]].
  split; [|split; [|eauto]].
  - rewrite <- sample_data_dates.
    change (Row.date (prepare_row i)) with (InputRow.date i).
    now apply in_map.
  - unfold sample_data in Hi. apply in_map_iff in Hi.
    destruct Hi as [[d c] [<- Hp]]. simpl.
    apply in_combine_r in Hp. destruct Hdrawn as [_ Hall].
    rewrite Forall_forall in Hall. now apply Hall.
Qed.

Lemma sample_date_has_row (d : Date) :
  In d sample_dates -> exists r, In r data /\ Row.date r = d.
Proof.
  intros Hd. rewrite <- sample_data_dates in Hd. apply in_map_iff in Hd.
  destruct Hd as [i [<- Hi]]. exists (prepare_row i). split; [|reflexivity].
  apply (Permutation_in _ (init_permutation _ _ Hinit)).
  unfold _prepare_data. now apply in_map.
Qed.

Lemma sample_valid :
  Forall (fun r => valid_date (InputRow.date r) = true) (sample_data enrolments).
Proof.
  apply Forall_forall. intros i Hi.
  pose proof sample_dates_valid as Hv. rewrite forallb_forall in Hv.
  apply Hv. rewrite <- sample_data_dates. now apply in_map.
Qed.

Lemma sample_every_month (k : Z) :
  1 <= k <= 12 -> exists r, In r data /\ Row.month r = k.
Proof.
  intros Hk. pose proof sample_dates_months as Hm.
  rewrite forallb_forall in Hm.
  assert (Hin : In k [1; 2; 3; 4; 5; 6; 7; 8; 9; 10; 11; 12])
    by (simpl; lia).
  specialize (Hm k Hin). apply existsb_exists in Hm.
  destruct Hm as [d [Hd E]]. apply Z.eqb_eq in E.
  destruct (sample_date_has_row d Hd) as [r [Hr Hdate]].
  exists r. split; [exact Hr|].
  destruct (sample_row_in r Hr) as (_ & _ & [i ->]).
  simpl in *. now rewrite Hdate.
Qed.

Lemma sample_every_quarter (q : Z) :
  1 <= q <= 4 -> exists r, In r data /\ Row.quarter r = q.
Proof.
  intros Hq. destruct (sample_every_month (3 * q) ltac:(lia)) as [r [Hr Hm]].
  exists r. split; [exact Hr|].
  destruct (sample_row_in r Hr) as (_ & _ & [i ->]).
  cbn [Row.month Row.quarter prepare_row] in *. unfold quarter_of.
  rewrite Hm. Z.div_mod_to_equations. lia.
Qed.

Lemma sample_extremes : exists a b,
  month_extremes data a b /\ row_month a = 24276 /\ row_month b = 24311.
Proof.
  destruct sample_dates_first_last as [H1 H2].
  apply existsb_exists in H1. destruct H1 as [d1 [Hd1 E1]].
  apply existsb_exists in H2. destruct H2 as [d2 [Hd2 E2]].
  apply Z.eqb_eq in E1, E2.
  destruct (sample_date_has_row d1 Hd1) as [a [Ha Hda]].
  destruct (sample_date_has_row d2 Hd2) as [b [Hb Hdb]].
  exists a, b. unfold month_extremes, row_month. rewrite Hda, Hdb, E1, E2.
  repeat split; auto;
    destruct (sample_row_in r H) as [Hd _];
    pose proof sample_dates_span as Hs; rewrite forallb_forall in Hs;
    specialize (Hs _ Hd); apply Bool.andb_true_iff in Hs;
    rewrite !Z.leb_le in Hs; lia.
Qed.

Lemma sample_nonneg (r : Row.t) : In r data -> 0 <= Row.enrolments r.
Proof. intros Hr. destruct (sample_row_in r Hr) as (_ & H & _). lia. Qed.

End TestSuite.

Lemma sum_float_lower (c : R) (xs : list R) :
  (forall x, In x xs -> (c <= x)%R) ->
  (INR (List.length xs) * c <= sum_float xs)%R.
Proof.
  induction xs as [|x xs IH]; intros H.
  - simpl. lra.
  - change (List.length (x :: xs)) with (S (List.length xs)). rewrite S_INR.
    pose proof (H x (or_introl eq_refl)).
    assert (IH' := IH (fun y Hy => H y (or_intror Hy))).
    simpl. lra.
Qed.

(** X15. The repository's tests hold for every draw of the random counts
    of their fixture (one row for each day of 2023-2025, counts in
    50..199): whatever table the constructor builds, [identify_peak_months]
    has 12 entries with keys in 1..12, [identify_peak_quarters] has 4
    entries with keys in 1..4, the seasonality strength is a number
    between 0 and 1, the monthly table has 36 bins so decomposition with
    period 12 is not refused but calls the library once and returns its
    components, and a summary exists. *)
Theorem test_suite_passes (enrolments : list Z) (data : list Row.t) :
  drawn enrolments ->
  __init__ (sample_data enrolments) data ->
  (forall out, identify_peak_months data out ->
     List.length out = 12%nat /\
     forall k v, In (k, v) out -> 1 <= k <= 12) /\
  (forall out, identify_peak_quarters data out ->
     List.length out = 4%nat /\
     forall k v, In (k, v) out -> 1 <= k <= 4) /\
  (exists v : R,
     calculate_seasonality_strength data = Fnum v /\ (0 <= v <= 1)%R) /\
  List.length (monthly_sum data) = 36%nat /\
  (forall lib,
     invocations lib (detect_seasonal_pattern data 12) = 1%nat /\
     forall d, lib (monthly_sum data) 12 = Returned d ->
       run lib (detect_seasonal_pattern data 12) =
         Returned (Components (dr_trend d) (dr_seasonal d) (dr_resid d)
                     (dr_observed d))) /\
  (exists s, get_seasonal_summary data s).
Proof.
  intros Hdrawn Hinit.
  assert (Hmonth : forall r, In r data -> 1 <= Row.month r < 1 + Z.of_nat 12).
  { intros r Hr. destruct (sample_row_in _ Hdrawn _ Hinit r Hr)
      as (Hd & _ & [i ->]).
    pose proof sample_dates_valid as Hv. rewrite forallb_forall in Hv.
    pose proof (valid_date_month _ (Hv _ Hd)). simpl in *. lia. }
  assert (Hquarter : forall r, In r data ->
                       1 <= Row.quarter r < 1 + Z.of_nat 4).
  { intros r Hr. destruct (sample_row_in _ Hdrawn _ Hinit r Hr)
      as (Hd & _ & [i ->]).
    pose proof sample_dates_valid as Hv. rewrite forallb_forall in Hv.
    pose proof (valid_date_quarter _ (Hv _ Hd)). simpl in *. lia. }
  assert (Hpm : forall out, identify_peak_months data out ->
            List.length out = 12%nat /\
            forall k v, In (k, v) out -> 1 <= k <= 12).
  { intros out Hout.
    destruct (peak_table_facts Row.month Row.enrolments data out 1 12 Hout)
      as (_ & _ & H3 & _ & H5).
    split.
    - apply H5; [exact Hmonth|]. intros k Hk.
      apply (sample_every_month _ Hdrawn _ Hinit). lia.
    - intros k v Hin.
      assert (Hk : In k (map fst out))
        by (apply in_map_iff; exists (k, v); auto).
      apply H3 in Hk. destruct Hk as [r [Hr <-]]. specialize (Hmonth r Hr).
      lia. }
  split; [exact Hpm|]. split; [|split; [|split; [|split]]].
  - intros out Hout.
    destruct (peak_table_facts Row.quarter Row.enrolments data out 1 4 Hout)
      as (_ & _ & H3 & _ & H5).
    split.
    + apply H5; [exact Hquarter|]. intros k Hk.
      apply (sample_every_quarter _ Hdrawn _ Hinit). lia.
    + intros k v Hin.
      assert (Hk : In k (map fst out))
        by (apply in_map_iff; exists (k, v); auto).
      apply H3 in Hk. destruct Hk as [r [Hr <-]]. specialize (Hquarter r Hr).
      lia.
  - pose proof (insertion_sort_spec descending descending_dec descending_trans
                  (groupby_mean Row.month Row.enrolments data)) as Hout.
    destruct (Hpm _ Hout) as [Hlen _].
    assert (Hlen' : List.length (month_means data) = 12%nat).
    { unfold month_means. rewrite length_map.
      now rewrite (Permutation_length (proj1 Hout)). }
    assert (Hlow : forall x, In x (month_means data) -> (IZR 50 <= x)%R).
    { intros x Hx. unfold month_means in Hx. apply in_map_iff in Hx.
      destruct Hx as [[k v] [<- Hin]].
      apply (Permutation_in _ (proj1 Hout)) in Hin.
      apply (peak_table_bounds _ _ _ Hout 50 199) in Hin; [simpl; lra|].
      intros r Hr. destruct (sample_row_in _ Hdrawn _ Hinit r Hr)
        as (_ & Hc & _). lia. }
    assert (Hmean : spec_mean (month_means data) <> 0%R).
    { pose proof (sum_float_lower _ _ Hlow) as Hs. rewrite Hlen' in Hs.
      unfold spec_mean. rewrite Hlen'. simpl in *. lra. }
    destruct (seasonality_strength_clamped data
                (sample_nonneg _ Hdrawn _ Hinit)
                ltac:(rewrite Hlen'; lia) Hmean) as (_ & Hres & Hrange).
    eexists. split; [exact Hres|exact Hrange].
  - destruct (sample_extremes _ Hdrawn _ Hinit) as (a & b & Hext & Ha & Hb).
    pose proof (monthly_sum_length data a b Hext) as Hlen.
    rewrite Ha, Hb in Hlen. lia.
  - intros lib.
    destruct (sample_extremes _ Hdrawn _ Hinit) as (a & b & Hext & Ha & Hb).
    pose proof (monthly_sum_length data a b Hext) as Hlen.
    rewrite Ha, Hb in Hlen.
    destruct (detect_seasonal_pattern_sufficient data 12 ltac:(lia) lib)
      as [Hinv Hrun].
    split; [exact Hinv|]. intros d Hd. now rewrite Hrun, Hd.
  - exists (summary_of data). apply get_seasonal_summary_of.
Qed.

Lemma test_suite_passes_witness :
  drawn (repeat 100 1096) /\
  __init__ (sample_data (repeat 100 1096))
    (construct (sample_data (repeat 100 1096))) /\
  List.length (monthly_sum (construct (sample_data (repeat 100 1096))))
  = 36%nat.
Proof.
  assert (H1 : drawn (repeat 100 1096)).
  { split.
    - rewrite repeat_length. symmetry. exact (proj1 sample_dates_ends).
    - apply Forall_forall. intros c Hc. apply repeat_spec in Hc. lia. }
  pose proof (init_construct (sample_data (repeat 100 1096))) as H2.
  split; [exact H1|]. split; [exact H2|].
  exact (proj1 (proj2 (proj2 (proj2 (test_suite_passes _ _ H1 H2))))).
Defined.
